(** * NeovimInstance: the driver between Neovim's msgpack-RPC session and Oni

    A shallow embedding of [browser/src/neovim/NeovimInstance.ts].

    - Decoded msgpack payloads (TypeScript [any]) are values of the type
      [value]; the JavaScript operations the source applies to them
      (indexing, [slice], [shift], [map], destructuring, property access,
      truthiness, [===]) are total functions into [result], where [Exn]
      is a thrown exception and [OutOfModel] marks the few places whose
      JavaScript meaning (prototype properties, numeric coercion of
      non-numbers) is left outside the embedding.
    - Methods of the class are computations in a state/trace/exception
      monad [M] over the instance fields ([driver]).  The trace records, in
      program order, every event dispatch, emitted action, log line and
      RPC request.
    - An awaited [Session.request] takes its reply from the [world]; a
      promise that the source drops is run by [floating], which swallows a
      rejection.  Handlers run to completion; interleaving of two handlers
      across an [await] is not modelled. *)

From Stdlib Require Import ZArith List String Ascii Bool Lia.
From Stdlib Require Import DecimalString.
From Stdlib Require Import Floats.PrimFloat Floats.SpecFloat Floats.FloatOps.
Import ListNotations.

Set Warnings "-register-all,-inexact-float".

Local Open Scope string_scope.
Local Open Scope list_scope.
Local Open Scope Z_scope.

(** ** JavaScript numbers and values *)

(** A JavaScript [number] that is an integer or one of the three
    non-finite values: line numbers, versions, rows and columns.
    Fractional wire numbers are not represented; pixel lengths and font
    metrics are doubles ([float]). *)
Inductive number : Type :=
| Fin (z : Z)
| NaN
| PosInfinity
| NegInfinity.

(** [a > b] *)
Definition num_gt (a b : number) : bool :=
  match a, b with
  | NaN, _ | _, NaN => false
  | Fin x, Fin y => x >? y
  | PosInfinity, PosInfinity => false
  | PosInfinity, _ => true
  | NegInfinity, _ => false
  | Fin _, PosInfinity => false
  | Fin _, NegInfinity => true
  end.

(** [a === b] on numbers: [NaN] is not equal to itself. *)
Definition num_eq (a b : number) : bool :=
  match a, b with
  | Fin x, Fin y => x =? y
  | PosInfinity, PosInfinity => true
  | NegInfinity, NegInfinity => true
  | _, _ => false
  end.

(** [a >= b] *)
Definition num_ge (a b : number) : bool :=
  match a, b with
  | NaN, _ | _, NaN => false
  | _, _ => num_gt a b || num_eq a b
  end.

(** [a - 1] *)
Definition num_pred (a : number) : number :=
  match a with
  | Fin x => Fin (x - 1)
  | other => other
  end.

(** [Math.floor(x)] of a double, as an integer or a non-finite value.  A
    finite double is [mantissa * 2 ^ exponent] exactly, so its floor is
    taken in [Z]; negative zero gives zero, which [===] does not tell
    from it. *)
Definition math_floor (x : float) : number :=
  match Prim2SF x with
  | S754_nan => NaN
  | S754_infinity false => PosInfinity
  | S754_infinity true => NegInfinity
  | S754_zero _ => Fin 0
  | S754_finite sign m e =>
      let mantissa := if sign then Z.neg m else Z.pos m in
      if 0 <=? e then Fin (mantissa * 2 ^ e) else Fin (mantissa / 2 ^ (- e))
  end.

(** [Math.floor(a / b)] on doubles: the quotient is the IEEE 754 binary64
    division, rounded to nearest.  A font metric [b] is [undefined] until
    [setFont] has run, and a division by [undefined] is NaN. *)
Definition floor_div (a : float) (b : option float) : number :=
  match b with
  | None => NaN
  | Some d => math_floor (a / d)%float
  end.

(** A decoded msgpack value. *)
Inductive value : Type :=
| VUndefined
| VNull
| VBool (b : bool)
| VNum (n : number)
| VStr (s : string)
| VArr (items : list value)
| VObj (fields : list (string * value)).

(** What a [throw] or a rejected promise carries. *)
Inductive thrown : Type :=
| TypeError
| ErrorObj (message : string)
| Reason (v : value).

Inductive result (A : Type) : Type :=
| Ok (a : A)
| Exn (e : thrown)
| OutOfModel.

Arguments Ok {A} a.
Arguments Exn {A} e.
Arguments OutOfModel {A}.

Module JS.

(** [!!v] *)
Definition truthy (v : value) : bool :=
  match v with
  | VUndefined | VNull => false
  | VBool b => b
  | VNum (Fin 0) | VNum NaN => false
  | VNum _ => true
  | VStr s => negb (s =? "")%string
  | VArr _ | VObj _ => true
  end.

(** [v === "s"] *)
Definition is_str (v : value) (s : string) : bool :=
  match v with
  | VStr s' => (s' =? s)%string
  | _ => false
  end.

Fixpoint assoc (k : string) (fields : list (string * value)) : value :=
  match fields with
  | [] => VUndefined
  | (k', v) :: rest => if (k' =? k)%string then v else assoc k rest
  end.

Definition key_of_index (i : Z) : string :=
  NilZero.string_of_int (Z.to_int i).

(** [v[i]] for an integer [i] (a negative [i] names no element).  A string
    is indexed by byte, which is JavaScript's answer for ASCII text. *)
Definition index (v : value) (i : Z) : result value :=
  match v with
  | VUndefined | VNull => Exn TypeError
  | VArr items =>
      if i <? 0 then Ok VUndefined else Ok (nth (Z.to_nat i) items VUndefined)
  | VStr s =>
      if i <? 0 then Ok VUndefined
      else match String.get (Z.to_nat i) s with
           | Some c => Ok (VStr (String c EmptyString))
           | None => Ok VUndefined
           end
  | VObj fields => Ok (assoc (key_of_index i) fields)
  | VBool _ | VNum _ => Ok VUndefined
  end.

(** [v.k] for the property names the source reads ([bold], [id],
    [bufferNumber], ...): none of them is on [Object.prototype].  On an
    array, string, boolean or number the answer would come from the
    prototype and is left outside the embedding. *)
Definition prop (v : value) (k : string) : result value :=
  match v with
  | VUndefined | VNull => Exn TypeError
  | VObj fields => Ok (assoc k fields)
  | _ => OutOfModel
  end.

(** [v.slice(1)] *)
Definition slice1 (v : value) : result value :=
  match v with
  | VArr items => Ok (VArr (tl items))
  | VStr s => Ok (VStr (substring 1 (String.length s - 1)%nat s))
  | _ => Exn TypeError
  end.

(** [v[v.length - 1]], for the array or string that [slice] returned. *)
Definition last_item (v : value) : result value :=
  match v with
  | VArr items => index v (Z.of_nat (List.length items) - 1)
  | VStr s => index v (Z.of_nat (String.length s) - 1)
  | _ => OutOfModel
  end.

Fixpoint chars (s : string) : list value :=
  match s with
  | EmptyString => []
  | String c rest => VStr (String c EmptyString) :: chars rest
  end.

(** The elements that an array pattern [[x, y, ...] = v] iterates. *)
Definition iterate (v : value) : result (list value) :=
  match v with
  | VArr items => Ok items
  | VStr s => Ok (chars s)
  | _ => Exn TypeError
  end.

(** [v.shift()]: the removed head and what is left of the array. *)
Definition shift (v : value) : result (value * value) :=
  match v with
  | VArr items => Ok (hd VUndefined items, VArr (tl items))
  | _ => Exn TypeError
  end.

(** A position that the source annotates as [number]. *)
Definition as_number (v : value) : result number :=
  match v with
  | VNum n => Ok n
  | _ => OutOfModel
  end.

End JS.

(** ** What the driver does to the outside *)

(** The action creators of [./../actions], as the calls the source makes. *)
Module Actions.
Inductive action : Type :=
| createCursorGotoAction (row col : value)
| put (characters : list value)
| setScrollRegion (top bottom left right : value)
| scroll (count : value)
| setHighlight (bold italic reverse underline undercurl : bool)
               (foreground background : value)
| resize (columns rows : value)
| clearToEndOfLine
| clear
| updateBackground (color : value)
| updateForeground (color : value)
| changeMode (mode : value)
| setFont (fontFamily fontSize : string) (width height linePadding : float).
End Actions.

(** One constructor per typed [Event<T>] field of the class, with the
    payload of a [dispatch]. *)
Inductive event : Type :=
| _onDirectoryChanged (directory : value)
| _onErrorEvent (error : thrown)
| _onYank (info : value)
| _onOniCommand (command : value)
| _onRedrawComplete
| _onFullBufferUpdateEvent (context bufferLines : value)
| _onIncrementalBufferUpdateEvent (context lineNumber lineContents : value)
| _onScroll (context : value)
| _onModeChanged (mode : value)
| _onHidePopupMenu
| _onShowPopupMenu (info : value)
| _onSelectPopupMenu (selected : value)
| _onLeave.

Inductive log_level : Type := info | warn | verbose.

Inductive effect : Type :=
| Dispatch (e : event)
| EmitAction (a : Actions.action)
| Emit (channel : string) (args : list value)
| NotifyAutocommand (eventName eventContext : value)
| Log (level : log_level) (message : string) (operand : option value)
| LogError (error : thrown)
| ConsoleLog (message : string) (operands : list value)
| Request (method : string) (args : list value)
| SetTimeout (handle : positive)
| PlayAudio (url : value)
| UnhandledRejection (e : thrown).

(** How a promise of a collaborator settles. *)
Inductive settled (A : Type) : Type :=
| Resolved (a : A)
| Rejected (e : thrown).

Arguments Resolved {A} a.
Arguments Rejected {A} e.

(** The collaborators outside the class: the session's replies, the
    process spawner, the font measurer and [path.normalize]. *)
Record world : Type := {
  session_request : string -> list value -> settled value;
  startNeovim : settled unit;
  measureFont : string -> string -> float * float;
  path_normalize : string -> string
}.

(** ** The instance fields *)

Record configuration : Type := {
  debug_fixedSize : option (number * number);
  oni_audio_bellUrl : value
}.

(** [_initPromise] once assigned: the callbacks chained on it while it is
    pending are the resize requests of [_resizeInternal]. *)
Inductive promise : Type :=
| Pending (reactions : list (string * list value))
| Fulfilled
| RejectedWith (e : thrown).

Record driver : Type := {
  _config : configuration;
  _isLeaving : bool;
  _initPromise : option promise;
  _fontFamily : string;
  _fontSize : string;
  _fontWidthInPixels : option float;
  _fontHeightInPixels : option float;
  _lastHeightInPixels : float;
  _lastWidthInPixels : float;
  _rows : option number;
  _cols : option number;
  _pendingScrollTimeout : option positive;
  next_timer : positive
}.

Definition set_isLeaving (b : bool) (s : driver) : driver :=
  {| _config := _config s; _isLeaving := b; _initPromise := _initPromise s;
     _fontFamily := _fontFamily s; _fontSize := _fontSize s;
     _fontWidthInPixels := _fontWidthInPixels s;
     _fontHeightInPixels := _fontHeightInPixels s;
     _lastHeightInPixels := _lastHeightInPixels s;
     _lastWidthInPixels := _lastWidthInPixels s;
     _rows := _rows s; _cols := _cols s;
     _pendingScrollTimeout := _pendingScrollTimeout s;
     next_timer := next_timer s |}.

Definition set_initPromise (p : option promise) (s : driver) : driver :=
  {| _config := _config s; _isLeaving := _isLeaving s; _initPromise := p;
     _fontFamily := _fontFamily s; _fontSize := _fontSize s;
     _fontWidthInPixels := _fontWidthInPixels s;
     _fontHeightInPixels := _fontHeightInPixels s;
     _lastHeightInPixels := _lastHeightInPixels s;
     _lastWidthInPixels := _lastWidthInPixels s;
     _rows := _rows s; _cols := _cols s;
     _pendingScrollTimeout := _pendingScrollTimeout s;
     next_timer := next_timer s |}.

Definition set_font (family size : string) (width height : float) (s : driver)
  : driver :=
  {| _config := _config s; _isLeaving := _isLeaving s;
     _initPromise := _initPromise s;
     _fontFamily := family; _fontSize := size;
     _fontWidthInPixels := Some width;
     _fontHeightInPixels := Some height;
     _lastHeightInPixels := _lastHeightInPixels s;
     _lastWidthInPixels := _lastWidthInPixels s;
     _rows := _rows s; _cols := _cols s;
     _pendingScrollTimeout := _pendingScrollTimeout s;
     next_timer := next_timer s |}.

Definition set_lastPixels (width height : float) (s : driver) : driver :=
  {| _config := _config s; _isLeaving := _isLeaving s;
     _initPromise := _initPromise s;
     _fontFamily := _fontFamily s; _fontSize := _fontSize s;
     _fontWidthInPixels := _fontWidthInPixels s;
     _fontHeightInPixels := _fontHeightInPixels s;
     _lastHeightInPixels := height;
     _lastWidthInPixels := width;
     _rows := _rows s; _cols := _cols s;
     _pendingScrollTimeout := _pendingScrollTimeout s;
     next_timer := next_timer s |}.

Definition set_geometry (rows cols : number) (s : driver) : driver :=
  {| _config := _config s; _isLeaving := _isLeaving s;
     _initPromise := _initPromise s;
     _fontFamily := _fontFamily s; _fontSize := _fontSize s;
     _fontWidthInPixels := _fontWidthInPixels s;
     _fontHeightInPixels := _fontHeightInPixels s;
     _lastHeightInPixels := _lastHeightInPixels s;
     _lastWidthInPixels := _lastWidthInPixels s;
     _rows := Some rows; _cols := Some cols;
     _pendingScrollTimeout := _pendingScrollTimeout s;
     next_timer := next_timer s |}.

Definition set_pendingScrollTimeout (h : option positive) (next : positive)
  (s : driver) : driver :=
  {| _config := _config s; _isLeaving := _isLeaving s;
     _initPromise := _initPromise s;
     _fontFamily := _fontFamily s; _fontSize := _fontSize s;
     _fontWidthInPixels := _fontWidthInPixels s;
     _fontHeightInPixels := _fontHeightInPixels s;
     _lastHeightInPixels := _lastHeightInPixels s;
     _lastWidthInPixels := _lastWidthInPixels s;
     _rows := _rows s; _cols := _cols s;
     _pendingScrollTimeout := h;
     next_timer := next |}.

(** [new NeovimInstance(widthInPixels, heightInPixels)] *)
Definition constructor (cfg : configuration) (family size : string)
  (widthInPixels heightInPixels : float) : driver :=
  {| _config := cfg; _isLeaving := false; _initPromise := None;
     _fontFamily := family; _fontSize := size;
     _fontWidthInPixels := None; _fontHeightInPixels := None;
     _lastHeightInPixels := heightInPixels;
     _lastWidthInPixels := widthInPixels;
     _rows := None; _cols := None;
     _pendingScrollTimeout := None; next_timer := 1%positive |}.

(** ** The monad of the methods *)

Definition M (A : Type) : Type :=
  world -> driver -> result A * driver * list effect.

Definition ret {A : Type} (a : A) : M A := fun _ s => (Ok a, s, []).

Definition bind {A B : Type} (m : M A) (f : A -> M B) : M B :=
  fun w s =>
    match m w s with
    | (Ok a, s1, t1) => let '(r, s2, t2) := f a w s1 in (r, s2, t1 ++ t2)
    | (Exn e, s1, t1) => (Exn e, s1, t1)
    | (OutOfModel, s1, t1) => (OutOfModel, s1, t1)
    end.

Declare Scope js_scope.
Delimit Scope js_scope with js.
Notation "x <- m ;; k" := (bind m (fun x => k))
  (at level 61, m at next level, right associativity) : js_scope.
Notation "m ;; k" := (bind m (fun _ => k))
  (at level 61, right associativity) : js_scope.
Local Open Scope js_scope.

Definition throw {A : Type} (e : thrown) : M A := fun _ s => (Exn e, s, []).

Definition lift {A : Type} (r : result A) : M A := fun _ s => (r, s, []).

Definition emit (e : effect) : M unit := fun _ s => (Ok tt, s, [e]).

Definition dispatch (e : event) : M unit := emit (Dispatch e).

Definition get : M driver := fun _ s => (Ok s, s, []).

Definition modify (f : driver -> driver) : M unit :=
  fun _ s => (Ok tt, f s, []).

Definition ask : M world := fun w s => (Ok w, s, []).

(** [await this._neovim.request(method, args)] *)
Definition request (method : string) (args : list value) : M value :=
  fun w s =>
    match session_request w method args with
    | Resolved v => (Ok v, s, [Request method args])
    | Rejected e => (Exn e, s, [Request method args])
    end.

(** A call of an [async] method whose promise the caller drops.  What the
    method does after its first [await] is recorded here, at the call;
    the code runs it once the reply has arrived, after the statements
    that follow the call in the handler. *)
Definition floating {A : Type} (m : M A) : M unit :=
  fun w s =>
    match m w s with
    | (Ok _, s1, t1) => (Ok tt, s1, t1)
    | (Exn e, s1, t1) => (Ok tt, s1, t1 ++ [UnhandledRejection e])
    | (OutOfModel, s1, t1) => (OutOfModel, s1, t1)
    end.

(** [p.then(onFulfilled, onRejected)]: the second handler sees a rejection
    of [p] only, not what the first handler throws. *)
Definition then2 {A B : Type} (p : M A) (onFulfilled : A -> M B)
  (onRejected : thrown -> M B) : M B :=
  fun w s =>
    match p w s with
    | (Ok a, s1, t1) =>
        let '(r, s2, t2) := onFulfilled a w s1 in (r, s2, t1 ++ t2)
    | (Exn e, s1, t1) =>
        let '(r, s2, t2) := onRejected e w s1 in (r, s2, t1 ++ t2)
    | (OutOfModel, s1, t1) => (OutOfModel, s1, t1)
    end.

(** [items.forEach(f)] on the items of an array *)
Fixpoint forEach (f : value -> M unit) (items : list value) : M unit :=
  match items with
  | [] => ret tt
  | x :: rest => f x ;; forEach f rest
  end.

Fixpoint mapM (f : value -> M value) (items : list value) : M (list value) :=
  match items with
  | [] => ret []
  | x :: rest => y <- f x ;; ys <- mapM f rest ;; ret (y :: ys)
  end.

(** [v.map(f)]: only an array has the method. *)
Definition array_map (v : value) (f : value -> M value) : M (list value) :=
  match v with
  | VArr items => mapM f items
  | _ => throw TypeError
  end.

Definition trace {A : Type} (x : result A * driver * list effect)
  : list effect := snd x.
Definition final {A : Type} (x : result A * driver * list effect)
  : driver := snd (fst x).
Definition outcome {A : Type} (x : result A * driver * list effect)
  : result A := fst (fst x).

(** ** Requests and small methods *)

Definition _onError (error : thrown) : M unit :=
  emit (LogError error) ;;
  dispatch (_onErrorEvent error).

Definition command (cmd : string) : M value :=
  emit (Log verbose "[NeovimInstance] Executing command: " (Some (VStr cmd))) ;;
  request "nvim_command" [VStr cmd].

Definition callFunction (functionName : string) (args : list value)
  : M value :=
  request "nvim_call_function" [VStr functionName; VArr args].

Definition eval (expression : string) : M value :=
  request "nvim_eval" [VStr expression].

Definition getContext : M value := callFunction "OniGetContext" [].

Definition getCurrentWorkingDirectory : M value :=
  currentWorkingDirectory <- eval "getcwd()" ;;
  match currentWorkingDirectory with
  | VStr d => w <- ask ;; ret (VStr (path_normalize w d))
  | _ => throw TypeError
  end.

Definition getApiVersion : M value :=
  versionInfo <- request "nvim_get_api_info" [] ;;
  entry <- lift (JS.index versionInfo 1) ;;
  lift (JS.prop entry "version").

Definition _updateProcessDirectory : M unit :=
  newDirectory <- getCurrentWorkingDirectory ;;
  dispatch (_onDirectoryChanged newDirectory).

(** ** Buffer updates *)

Definition MAX_LINES_FOR_BUFFER_UPDATE : number := Fin 5000.

Definition _onFullBufferUpdate (context : value) (startRange endRange : number)
  : M unit :=
  if num_gt endRange MAX_LINES_FOR_BUFFER_UPDATE then ret tt
  else
    bufferNumber <- lift (JS.prop context "bufferNumber") ;;
    bufferLines <- request "nvim_buf_get_lines"
                     [bufferNumber; VNum (num_pred startRange);
                      VNum endRange; VBool false] ;;
    dispatch (_onFullBufferUpdateEvent context bufferLines).

(** ** Attach negotiation *)

Definition _getStartupOptionsForVersion (major minor patch : number)
  : result value :=
  if num_ge major (Fin 0) && num_ge minor (Fin 2) && num_ge patch (Fin 1)
  then Ok (VObj [("rgb", VBool true);
                 ("popupmenu_external", VBool true);
                 ("ext_tabline", VBool true)])
  else if num_eq major (Fin 0) && num_eq minor (Fin 2)
  then Ok (VObj [("rgb", VBool true);
                 ("popupmenu_external", VBool true)])
  else Exn (ErrorObj "Unsupported version of Neovim.").

Definition _attachUI (columns rows : number) : M unit :=
  version <- getApiVersion ;;
  major <- lift (JS.prop version "major") ;;
  minor <- lift (JS.prop version "minor") ;;
  patch <- lift (JS.prop version "patch") ;;
  emit (ConsoleLog "Neovim version reported as " [major; minor; patch]) ;;
  major <- lift (JS.as_number major) ;;
  minor <- lift (JS.as_number minor) ;;
  patch <- lift (JS.as_number patch) ;;
  startupOptions <- lift (_getStartupOptionsForVersion major minor patch) ;;
  request "nvim_ui_attach" [VNum columns; VNum rows; startupOptions] ;;
  ret tt.

(** ** Geometry *)

Definition _getSize (s : driver) : number * number :=
  let rows := floor_div (_lastHeightInPixels s) (_fontHeightInPixels s) in
  let cols := floor_div (_lastWidthInPixels s) (_fontWidthInPixels s) in
  (rows, cols).

(** [n === field] where the field is [undefined] until first assigned *)
Definition same_as (n : number) (field : option number) : bool :=
  match field with
  | Some m => num_eq n m
  | None => false
  end.

Definition try_resize (columns rows : number) : string * list value :=
  ("nvim_ui_try_resize", [VNum columns; VNum rows]).

Definition _resizeInternal (rows columns : number) : M unit :=
  s <- get ;;
  sized <- match debug_fixedSize (_config s) with
           | Some fixedSize =>
               emit (Log warn
                       "Overriding screen size based on debug.fixedSize"
                       None) ;;
               ret fixedSize
           | None => ret (rows, columns)
           end ;;
  let rows := fst sized in
  let columns := snd sized in
  if same_as rows (_rows s) && same_as columns (_cols s) then ret tt
  else
    modify (set_geometry rows columns) ;;
    match _initPromise s with
    | None => ret tt
    | Some (Pending reactions) =>
        modify (set_initPromise
                  (Some (Pending (reactions ++ [try_resize columns rows]))))
    | Some Fulfilled =>
        floating (request (fst (try_resize columns rows))
                          (snd (try_resize columns rows)))
    | Some (RejectedWith e) => emit (UnhandledRejection e)
    end.

Definition resize (widthInPixels heightInPixels : float) : M unit :=
  modify (set_lastPixels widthInPixels heightInPixels) ;;
  s <- get ;;
  let size := _getSize s in
  _resizeInternal (fst size) (snd size).

Definition setFont (fontFamily fontSize : string) (linePadding : float)
  : M unit :=
  w <- ask ;;
  let measured := measureFont w fontFamily fontSize in
  let width := fst measured in
  let height := snd measured in
  modify (set_font fontFamily fontSize width (height + linePadding)%float) ;;
  emit (EmitAction (Actions.setFont fontFamily fontSize width
                      (height + linePadding)%float linePadding)) ;;
  s <- get ;;
  resize (_lastWidthInPixels s) (_lastHeightInPixels s).

(** The two members of the interface that are stubs. *)
Record IPosition : Type := { row : Z; column : Z }.
Record IPixelPosition : Type := { x : Z; y : Z }.

Definition cursorPosition (s : driver) : IPosition :=
  {| row := 0; column := 0 |}.

Definition screenToPixels (s : driver) (_row _col : number) : IPixelPosition :=
  {| x := 0; y := 0 |}.

(** ** The redraw interpreter *)

Definition _dispatchScrollEvent : M unit :=
  s <- get ;;
  match _pendingScrollTimeout s with
  | Some _ => ret tt
  | None =>
      let handle := next_timer s in
      emit (SetTimeout handle) ;;
      modify (set_pendingScrollTimeout (Some handle) (Pos.succ handle))
  end.

(** The callback that [_dispatchScrollEvent] hands to [window.setTimeout]. *)
Definition scroll_timeout : M unit :=
  floating (evt <- getContext ;;
            dispatch (_onScroll evt) ;;
            s <- get ;;
            modify (set_pendingScrollTimeout None (next_timer s))).

(** [a[0][i]] *)
Definition first_tuple (a : value) (i : Z) : M value :=
  a0 <- lift (JS.index a 0) ;;
  lift (JS.index a0 i).

Definition cursor_goto (a : value) : M unit :=
  row <- first_tuple a 0 ;;
  col <- first_tuple a 1 ;;
  emit (EmitAction (Actions.createCursorGotoAction row col)).

Definition put (a : value) : M unit :=
  charactersToPut <- array_map a (fun v => lift (JS.index v 0)) ;;
  emit (EmitAction (Actions.put charactersToPut)).

Definition set_scroll_region (a : value) : M unit :=
  param <- lift (JS.index a 0) ;;
  top <- lift (JS.index param 0) ;;
  bottom <- lift (JS.index param 1) ;;
  left <- lift (JS.index param 2) ;;
  right <- lift (JS.index param 3) ;;
  emit (EmitAction (Actions.setScrollRegion top bottom left right)).

Definition scroll (a : value) : M unit :=
  count <- first_tuple a 0 ;;
  emit (EmitAction (Actions.scroll count)) ;;
  _dispatchScrollEvent.

Definition highlight_set (a : value) : M unit :=
  lastTuple <- lift (JS.last_item a) ;;
  highlightInfo <- lift (JS.index lastTuple 0) ;;
  bold <- lift (JS.prop highlightInfo "bold") ;;
  italic <- lift (JS.prop highlightInfo "italic") ;;
  reverse <- lift (JS.prop highlightInfo "reverse") ;;
  underline <- lift (JS.prop highlightInfo "underline") ;;
  undercurl <- lift (JS.prop highlightInfo "undercurl") ;;
  foreground <- lift (JS.prop highlightInfo "foreground") ;;
  background <- lift (JS.prop highlightInfo "background") ;;
  emit (EmitAction (Actions.setHighlight
                      (JS.truthy bold) (JS.truthy italic) (JS.truthy reverse)
                      (JS.truthy underline) (JS.truthy undercurl)
                      foreground background)).

Definition redraw_resize (a : value) : M unit :=
  columns <- first_tuple a 0 ;;
  rows <- first_tuple a 1 ;;
  emit (EmitAction (Actions.resize columns rows)).

Definition set_title (a : value) : M unit :=
  title <- first_tuple a 0 ;;
  emit (Emit "set-title" [title]).

Definition update_bg (a : value) : M unit :=
  color <- first_tuple a 0 ;;
  emit (EmitAction (Actions.updateBackground color)).

Definition update_fg (a : value) : M unit :=
  color <- first_tuple a 0 ;;
  emit (EmitAction (Actions.updateForeground color)).

Definition mode_change (a : value) : M unit :=
  lastTuple <- lift (JS.last_item a) ;;
  newMode <- lift (JS.index lastTuple 0) ;;
  emit (EmitAction (Actions.changeMode newMode)) ;;
  dispatch (_onModeChanged newMode).

Definition popupmenu_select (a : value) : M unit :=
  selected <- first_tuple a 0 ;;
  dispatch (_onSelectPopupMenu selected).

Definition completion_item (item : value) : M value :=
  parts <- lift (JS.iterate item) ;;
  ret (VObj [("word", nth 0 parts VUndefined);
             ("kind", nth 1 parts VUndefined);
             ("menu", nth 2 parts VUndefined);
             ("info", nth 3 parts VUndefined)]).

Definition popupmenu_show (a : value) : M unit :=
  a0 <- lift (JS.index a 0) ;;
  parts <- lift (JS.iterate a0) ;;
  let items := nth 0 parts VUndefined in
  let selected := nth 1 parts VUndefined in
  let row := nth 2 parts VUndefined in
  let col := nth 3 parts VUndefined in
  mappedItems <- array_map items completion_item ;;
  dispatch (_onShowPopupMenu
              (VObj [("items", VArr mappedItems);
                     ("selectedIndex", selected);
                     ("row", row);
                     ("col", col)])).

Definition tab_entry (t : value) : M value :=
  tab <- lift (JS.prop t "tab") ;;
  id <- lift (JS.prop tab "id") ;;
  name <- lift (JS.prop t "name") ;;
  ret (VObj [("id", id); ("name", name)]).

Definition tabline_update (a : value) : M unit :=
  a0 <- lift (JS.index a 0) ;;
  parts <- lift (JS.iterate a0) ;;
  let currentTab := nth 0 parts VUndefined in
  let tabs := nth 1 parts VUndefined in
  mappedTabs <- array_map tabs tab_entry ;;
  currentId <- lift (JS.prop currentTab "id") ;;
  emit (Emit "tabline-update" [currentId; VArr mappedTabs]).

Definition bell : M unit :=
  s <- get ;;
  let bellUrl := oni_audio_bellUrl (_config s) in
  if JS.truthy bellUrl then emit (PlayAudio bellUrl) else ret tt.

(** The [switch (command)] of [_handleNotification], on the command name
    and the argument tuples that follow it. *)
Definition redraw_switch (command a : value) : M unit :=
  if JS.is_str command "cursor_goto" then cursor_goto a
  else if JS.is_str command "put" then put a
  else if JS.is_str command "set_scroll_region" then set_scroll_region a
  else if JS.is_str command "scroll" then scroll a
  else if JS.is_str command "highlight_set" then highlight_set a
  else if JS.is_str command "resize" then redraw_resize a
  else if JS.is_str command "set_title" then set_title a
  else if JS.is_str command "set_icon" then ret tt
  else if JS.is_str command "eol_clear"
       then emit (EmitAction Actions.clearToEndOfLine)
  else if JS.is_str command "clear" then emit (EmitAction Actions.clear)
  else if JS.is_str command "mouse_on" then ret tt
  else if JS.is_str command "update_bg" then update_bg a
  else if JS.is_str command "update_fg" then update_fg a
  else if JS.is_str command "mode_change" then mode_change a
  else if JS.is_str command "popupmenu_select" then popupmenu_select a
  else if JS.is_str command "popupmenu_hide" then dispatch _onHidePopupMenu
  else if JS.is_str command "popupmenu_show" then popupmenu_show a
  else if JS.is_str command "tabline_update" then tabline_update a
  else if JS.is_str command "bell" then bell
  else emit (Log warn "Unhandled command: " (Some command)).

(** The body of the [args.forEach] callback. *)
Definition redraw_command (a : value) : M unit :=
  command <- lift (JS.index a 0) ;;
  a <- lift (JS.slice1 a) ;;
  redraw_switch command a.

Definition _handleNotification (_method args : value) : M unit :=
  match args with
  | VArr items => forEach redraw_command items
  | _ => throw TypeError
  end.

(** ** The session's event handlers, as [start] registers them *)

Definition plugin_event (args0 : value) : M unit :=
  eventName <- lift (JS.index args0 0) ;;
  eventContext <- lift (JS.index args0 1) ;;
  (if JS.is_str eventName "DirChanged" then floating _updateProcessDirectory
   else if JS.is_str eventName "VimLeave"
        then modify (set_isLeaving true) ;; dispatch _onLeave
   else ret tt) ;;
  emit (NotifyAutocommand eventName eventContext) ;;
  emit (Emit "event" [eventName; eventContext]).

Definition plugin_buffer_update (args0 : value) : M unit :=
  eventContext <- lift (JS.index args0 0) ;;
  startRange <- lift (JS.index args0 1) ;;
  endRange <- lift (JS.index args0 2) ;;
  startRange <- lift (JS.as_number startRange) ;;
  endRange <- lift (JS.as_number endRange) ;;
  floating (_onFullBufferUpdate eventContext startRange endRange).

Definition plugin_incremental_buffer_update (args0 : value) : M unit :=
  eventContext <- lift (JS.index args0 0) ;;
  lineContents <- lift (JS.index args0 1) ;;
  lineNumber <- lift (JS.index args0 2) ;;
  dispatch (_onIncrementalBufferUpdateEvent eventContext lineNumber
              lineContents).

(** The branch for [oni_plugin_notify]; [args0] is [args[0]] after
    [pluginArgs.shift()] has removed the sub-method from it. *)
Definition plugin_switch (pluginMethod args0 : value) : M unit :=
  if JS.is_str pluginMethod "buffer_update" then plugin_buffer_update args0
  else if JS.is_str pluginMethod "oni_yank"
       then info <- lift (JS.index args0 0) ;; dispatch (_onYank info)
  else if JS.is_str pluginMethod "oni_command"
       then cmd <- lift (JS.index args0 0) ;; dispatch (_onOniCommand cmd)
  else if JS.is_str pluginMethod "event" then plugin_event args0
  else if JS.is_str pluginMethod "incremental_buffer_update"
       then plugin_incremental_buffer_update args0
  else emit (Log warn "Unknown event from oni_plugin_notify: "
               (Some pluginMethod)).

Definition on_notification (method args : value) : M unit :=
  if JS.is_str method "redraw" then
    _handleNotification method args ;;
    dispatch _onRedrawComplete
  else if JS.is_str method "oni_plugin_notify" then
    pluginArgs <- lift (JS.index args 0) ;;
    shifted <- lift (JS.shift pluginArgs) ;;
    plugin_switch (fst shifted) (snd shifted)
  else emit (Log warn "Unknown notification: " (Some method)).

Definition on_request (method : value) : M unit :=
  emit (Log warn "Unhandled request: " (Some method)).

Definition on_error (err : thrown) : M unit := _onError err.

Definition disconnect_message : string :=
  "Neovim disconnected. This likely means that the Neovim process crashed.".

Definition on_disconnect : M unit :=
  s <- get ;;
  if negb (_isLeaving s) then _onError (Reason (VStr disconnect_message))
  else ret tt.

(** ** start *)

(** The settled state of the promise that [m] stands for. *)
Definition attempt {A : Type} (m : M A) : M (settled A) :=
  fun w s =>
    match m w s with
    | (Ok a, s1, t1) => (Ok (Resolved a), s1, t1)
    | (Exn e, s1, t1) => (Ok (Rejected e), s1, t1)
    | (OutOfModel, s1, t1) => (OutOfModel, s1, t1)
    end.

(** [this._initPromise = startNeovim(startOptions).then(...)]: the field is
    assigned while the chain is still pending.  (A second [start] replaces
    the promise; callbacks chained on the replaced one are not followed.) *)
Definition start_assign : M unit :=
  modify (set_initPromise (Some (Pending []))).

(** The callback chained on [startNeovim(startOptions)]. *)
Definition start_chain : M unit :=
  w <- ask ;;
  match startNeovim w with
  | Rejected e => throw e
  | Resolved _ =>
      emit (Log info "NeovimInstance: Neovim started" None) ;;
      s <- get ;;
      let size := _getSize s in
      modify (set_geometry (fst size) (snd size)) ;;
      then2 (_attachUI (snd size) (fst size))
        (fun _ =>
           emit (Log info "Attach success" None) ;;
           command "set title" ;;
           callFunction "OniConnect" [] ;;
           ret tt)
        (fun err => _onError err)
  end.

Fixpoint run_reactions (outcome : settled unit)
  (reactions : list (string * list value)) : M unit :=
  match reactions with
  | [] => ret tt
  | r :: rest =>
      match outcome with
      | Resolved _ => floating (request (fst r) (snd r))
      | Rejected e => emit (UnhandledRejection e)
      end ;;
      run_reactions outcome rest
  end.

(** The chain settles: [_initPromise] takes its state and the callbacks
    chained on it meanwhile run.  The value is the state of the promise
    that [start] returned. *)
Definition start_settle : M promise :=
  r <- attempt start_chain ;;
  s <- get ;;
  let reactions := match _initPromise s with
                   | Some (Pending l) => l
                   | _ => []
                   end in
  let state := match r with
               | Resolved _ => Fulfilled
               | Rejected e => RejectedWith e
               end in
  modify (set_initPromise (Some state)) ;;
  run_reactions r reactions ;;
  ret state.

Definition start : M promise :=
  start_assign ;;
  start_settle.

(** ** Observations on a trace *)

Definition is_request (e : effect) : bool :=
  match e with Request _ _ => true | _ => false end.

Definition is_error_event (e : effect) : bool :=
  match e with Dispatch (_onErrorEvent _) => true | _ => false end.

Definition is_leave (e : effect) : bool :=
  match e with Dispatch _onLeave => true | _ => false end.

Definition is_redraw_complete (e : effect) : bool :=
  match e with Dispatch _onRedrawComplete => true | _ => false end.

Definition is_buffer_update (e : effect) : bool :=
  match e with Dispatch (_onFullBufferUpdateEvent _ _) => true | _ => false end.

Definition requests (t : list effect) : list effect := filter is_request t.
Definition error_events (t : list effect) : list effect :=
  filter is_error_event t.
Definition leave_events (t : list effect) : list effect := filter is_leave t.
Definition redraw_completes (t : list effect) : list effect :=
  filter is_redraw_complete t.
Definition buffer_updates (t : list effect) : list effect :=
  filter is_buffer_update t.

(** ** Sample collaborators and states, for concrete runs *)

Module Sample.

Definition api_info (major minor patch : Z) : value :=
  VArr [VNum (Fin 1);
        VObj [("version",
               VObj [("major", VNum (Fin major));
                     ("minor", VNum (Fin minor));
                     ("patch", VNum (Fin patch))])]].

(** A session that reports the given version, fails every line fetch and
    answers [null] to everything else. *)
Definition session (major minor patch : Z) (method : string)
  (args : list value) : settled value :=
  if (method =? "nvim_get_api_info")%string
  then Resolved (api_info major minor patch)
  else if (method =? "nvim_buf_get_lines")%string
  then Rejected (ErrorObj "channel closed")
  else Resolved VNull.

Definition world_of (major minor patch : Z) : world :=
  {| session_request := session major minor patch;
     startNeovim := Resolved tt;
     measureFont := fun _ _ => (8%float, 16%float);
     path_normalize := fun d => d |}.

Definition plain : configuration :=
  {| debug_fixedSize := None; oni_audio_bellUrl := VUndefined |}.

Definition fixed : configuration :=
  {| debug_fixedSize := Some (Fin 10, Fin 20);
     oni_audio_bellUrl := VUndefined |}.

Definition fresh : driver :=
  constructor plain "Consolas" "12px" 800%float 600%float.

(** An instance whose [start] has fulfilled, with an 8x16 font, 800x600
    pixels and the given applied geometry. *)
Definition attached (cfg : configuration) (rows cols : Z) : driver :=
  {| _config := cfg; _isLeaving := false; _initPromise := Some Fulfilled;
     _fontFamily := "Consolas"; _fontSize := "12px";
     _fontWidthInPixels := Some 8%float;
     _fontHeightInPixels := Some 16%float;
     _lastHeightInPixels := 600%float;
     _lastWidthInPixels := 800%float;
     _rows := Some (Fin rows); _cols := Some (Fin cols);
     _pendingScrollTimeout := None; next_timer := 1%positive |}.

Definition context : value := VObj [("bufferNumber", VNum (Fin 3))].

Definition num (z : Z) : value := VNum (Fin z).

End Sample.

(** ** Names used in the statements *)

Definition full_capabilities : value :=
  VObj [("rgb", VBool true); ("popupmenu_external", VBool true);
        ("ext_tabline", VBool true)].

Definition basic_capabilities : value :=
  VObj [("rgb", VBool true); ("popupmenu_external", VBool true)].

Definition unsupported : thrown := ErrorObj "Unsupported version of Neovim.".

(** The [oni_plugin_notify] payload of a [buffer_update]. *)
Definition buffer_update_payload (context : value) (startLine endLine : Z)
  : value :=
  VArr [VArr [VStr "buffer_update"; context;
              VNum (Fin startLine); VNum (Fin endLine)]].

(** The line fetch for the half-open, zero-based range
    [startLine - 1, endLine) of the buffer named in the context. *)
Definition fetch_args (fields : list (string * value))
  (startLine endLine : Z) : list value :=
  [JS.assoc "bufferNumber" fields; VNum (Fin (startLine - 1));
   VNum (Fin endLine); VBool false].

(** The case labels of the two switches. *)
Definition redraw_commands : list string :=
  ["cursor_goto"; "put"; "set_scroll_region"; "scroll"; "highlight_set";
   "resize"; "set_title"; "set_icon"; "eol_clear"; "clear"; "mouse_on";
   "update_bg"; "update_fg"; "mode_change"; "popupmenu_select";
   "popupmenu_hide"; "popupmenu_show"; "tabline_update"; "bell"].

Definition plugin_methods : list string :=
  ["buffer_update"; "oni_yank"; "oni_command"; "event";
   "incremental_buffer_update"].

Definition known_redraw (command : value) : bool :=
  existsb (JS.is_str command) redraw_commands.

Definition known_plugin (pluginMethod : value) : bool :=
  existsb (JS.is_str pluginMethod) plugin_methods.

(** A run with [t] put in front of its trace. *)
Definition after_trace {A : Type} (t : list effect)
  (x : result A * driver * list effect) : result A * driver * list effect :=
  (outcome x, final x, t ++ trace x).

(** ** What reaches the driver *)

Inductive input : Type :=
| Notification (method args : value)
| SessionRequest (method : value)
| SessionError (err : thrown)
| Disconnect
| ScrollTimeout
| CallResize (widthInPixels heightInPixels : float)
| CallSetFont (fontFamily fontSize : string) (linePadding : float)
| CallStart.

Definition handle (i : input) : M unit :=
  match i with
  | Notification method args => on_notification method args
  | SessionRequest method => on_request method
  | SessionError err => on_error err
  | Disconnect => on_disconnect
  | ScrollTimeout => scroll_timeout
  | CallResize width height => resize width height
  | CallSetFont family size padding => setFont family size padding
  | CallStart => start ;; ret tt
  end.

(** The inputs handled one after the other, each on the state the one
    before left, whether it returned or threw; [None] once a handler
    leaves the embedding. *)
Fixpoint feed (inputs : list input) (w : world) (s : driver)
  : option (driver * list effect) :=
  match inputs with
  | [] => Some (s, [])
  | i :: rest =>
      match handle i w s with
      | (OutOfModel, _, _) => None
      | (_, s1, t1) =>
          match feed rest w s1 with
          | Some (s2, t2) => Some (s2, t1 ++ t2)
          | None => None
          end
      end
  end.

(** The notification that takes the [VimLeave] branch: an
    [oni_plugin_notify] whose first argument is an array that starts with
    ["event"], ["VimLeave"]. *)
Definition is_VimLeave (i : input) : bool :=
  match i with
  | Notification method args =>
      JS.is_str method "oni_plugin_notify" &&
      match JS.index args 0 with
      | Ok pluginArgs =>
          match JS.shift pluginArgs with
          | Ok shifted =>
              JS.is_str (fst shifted) "event" &&
              match JS.index (snd shifted) 0 with
              | Ok eventName => JS.is_str eventName "VimLeave"
              | _ => false
              end
          | _ => false
          end
      | _ => false
      end
  | _ => false
  end.

(** [respects P R m]: every effect that [m] emits satisfies [P] and the
    state [m] leaves is [R]-related to the one it found, whether [m]
    returns or throws. *)
Definition respects (P : effect -> Prop) (R : driver -> driver -> Prop)
  {A : Type} (m : M A) : Prop :=
  forall w s, Forall P (trace (m w s)) /\ R s (final (m w s)).

Definition not_redraw_complete (e : effect) : Prop :=
  is_redraw_complete e = false.

Definition any_state (_ _ : driver) : Prop := True.

(** The [setHighlight] action for the fields of a highlight map. *)
Definition highlight_of (fields : list (string * value)) : Actions.action :=
  Actions.setHighlight
    (JS.truthy (JS.assoc "bold" fields))
    (JS.truthy (JS.assoc "italic" fields))
    (JS.truthy (JS.assoc "reverse" fields))
    (JS.truthy (JS.assoc "underline" fields))
    (JS.truthy (JS.assoc "undercurl" fields))
    (JS.assoc "foreground" fields)
    (JS.assoc "background" fields).

(** The last [setHighlight] action of a trace: the attributes in force
    for the [put] actions that follow. *)
Fixpoint active_highlight (t : list effect) : option Actions.action :=
  match t with
  | [] => None
  | e :: rest =>
      match active_highlight rest with
      | Some a => Some a
      | None =>
          match e with
          | EmitAction (Actions.setHighlight b i r u c fg bg) =>
              Some (Actions.setHighlight b i r u c fg bg)
          | _ => None
          end
      end
  end.

Definition anything (_ : effect) : Prop := True.

Definition not_leave (e : effect) : Prop := is_leave e = false.

(** The flag, once true, is true afterwards. *)
Definition stays_leaving (s s' : driver) : Prop :=
  _isLeaving s = true -> _isLeaving s' = true.

(** The flag is what it was. *)
Definition same_leaving (s s' : driver) : Prop :=
  _isLeaving s' = _isLeaving s.

Definition no_VimLeave (inputs : list input) : bool :=
  forallb (fun i => negb (is_VimLeave i)) inputs.

Definition disconnect_error : thrown := Reason (VStr disconnect_message).

(** The (rows, columns) that [_resizeInternal] compares with the applied
    geometry: the [debug.fixedSize] override if the configuration has one,
    else what [_getSize] computes. *)
Definition size_to_apply (s : driver) : number * number :=
  match debug_fixedSize (_config s) with
  | Some fixedSize => fixedSize
  | None => _getSize s
  end.

Definition same_geometry (size : number * number) (s : driver) : bool :=
  same_as (fst size) (_rows s) && same_as (snd size) (_cols s).

Module Scenario.

Definition world : world := Sample.world_of 0 2 1.

Definition VimLeave : input :=
  Notification (VStr "oni_plugin_notify")
    (VArr [VArr [VStr "event"; VStr "VimLeave"; Sample.context]]).

Definition redraw : input :=
  Notification (VStr "redraw")
    (VArr [VArr [VStr "clear"];
           VArr [VStr "cursor_goto"; VArr [Sample.num 1; Sample.num 2]]]).

Definition leaving : driver := set_isLeaving true Sample.fresh.

End Scenario.


(** ** The remaining request methods *)

Module NeovimInstance.

Definition input (inputString : string) : M value :=
  request "nvim_input" [VStr inputString].

Definition open (fileName : string) : M value :=
  command ("e! " ++ fileName).

Definition chdir (directoryPath : string) : M unit :=
  command ("cd! " ++ directoryPath) ;;
  ret tt.

Definition getBufferIds : M (list value) :=
  buffers <- request "nvim_list_bufs" [] ;;
  array_map buffers (fun b => lift (JS.prop b "id")).

End NeovimInstance.

(** ** More observations on a trace and on the state *)

Definition is_timeout (e : effect) : bool :=
  match e with SetTimeout _ => true | _ => false end.

Definition is_scroll_event (e : effect) : bool :=
  match e with Dispatch (_onScroll _) => true | _ => false end.

Definition is_directory_event (e : effect) : bool :=
  match e with Dispatch (_onDirectoryChanged _) => true | _ => false end.

Definition is_forward (e : effect) : bool :=
  match e with
  | NotifyAutocommand _ _ => true
  | Emit channel _ => (channel =? "event")%string
  | _ => false
  end.

Definition timeouts (t : list effect) : list effect := filter is_timeout t.
Definition scroll_events (t : list effect) : list effect :=
  filter is_scroll_event t.
Definition directory_events (t : list effect) : list effect :=
  filter is_directory_event t.
Definition forwards (t : list effect) : list effect := filter is_forward t.

(** What a redraw notification may do to the outside: UI actions, the
    title and tabline side channels, mode and popup-menu events, a
    warning, the scroll timer, the bell, and RedrawComplete. *)
Definition is_redraw_effect (e : effect) : bool :=
  match e with
  | EmitAction _ => true
  | Dispatch _onRedrawComplete => true
  | Emit channel _ =>
      (channel =? "set-title")%string || (channel =? "tabline-update")%string
  | Dispatch (_onModeChanged _) => true
  | Dispatch (_onSelectPopupMenu _) => true
  | Dispatch _onHidePopupMenu => true
  | Dispatch (_onShowPopupMenu _) => true
  | Log warn _ _ => true
  | SetTimeout _ => true
  | PlayAudio _ => true
  | _ => false
  end.

(** What a plugin notification may do to the outside. *)
Definition is_plugin_effect (e : effect) : bool :=
  match e with
  | Dispatch (_onFullBufferUpdateEvent _ _) => true
  | Dispatch (_onIncrementalBufferUpdateEvent _ _ _) => true
  | Dispatch (_onYank _) => true
  | Dispatch (_onOniCommand _) => true
  | Dispatch (_onDirectoryChanged _) => true
  | Dispatch _onLeave => true
  | NotifyAutocommand _ _ => true
  | Emit channel _ => (channel =? "event")%string
  | Request method _ =>
      (method =? "nvim_buf_get_lines")%string || (method =? "nvim_eval")%string
  | UnhandledRejection _ => true
  | Log warn _ _ => true
  | _ => false
  end.

Definition redraw_effect (e : effect) : Prop := is_redraw_effect e = true.
Definition plugin_effect (e : effect) : Prop := is_plugin_effect e = true.

(** Nothing but the scroll-timer slot differs. *)
Definition only_scroll_timer (s s' : driver) : Prop :=
  s' = set_pendingScrollTimeout (_pendingScrollTimeout s') (next_timer s') s.

(** Nothing differs, or only the leaving flag, which is then set. *)
Definition only_leaving (s s' : driver) : Prop :=
  s' = s \/ s' = set_isLeaving true s.

Definition no_timeout (e : effect) : Prop := is_timeout e = false.

Definition no_error_event (e : effect) : Prop := is_error_event e = false.

Definition is_NaN (n : number) : bool :=
  match n with NaN => true | _ => false end.

(** The requests of the chained callbacks, as effects. *)
Definition reaction_requests (reactions : list (string * list value))
  : list effect :=
  map (fun r => Request (fst r) (snd r)) reactions.

(** One step of the scroll debounce, from state [s] to the run [r]: either
    no timer was set and the state is as it was, or the slot was free and
    is now taken by the one timer that was set. *)
Definition debounced {A : Type} (s : driver)
  (r : result A * driver * list effect) : Prop :=
  (timeouts (trace r) = [] /\ final r = s) \/
  (_pendingScrollTimeout s = None /\
   timeouts (trace r) = [SetTimeout (next_timer s)] /\
   _pendingScrollTimeout (final r) <> None).

Definition get_context_request : effect :=
  Request "nvim_call_function" [VStr "OniGetContext"; VArr []].

(** The instance as [start]'s callback finds it when it reaches the attach
    step: the promise assigned and pending, the geometry recorded. *)
Definition at_attach (s : driver) : driver :=
  set_geometry (fst (_getSize s)) (snd (_getSize s))
    (set_initPromise (Some (Pending [])) s).

Definition same_initPromise (s s' : driver) : Prop :=
  _initPromise s' = _initPromise s.

Definition started : effect :=
  Log info "NeovimInstance: Neovim started" None.

Module Worlds.

(** The session is down: every request is rejected. *)
Definition down : world :=
  {| session_request := fun _ _ => Rejected (ErrorObj "channel closed");
     startNeovim := Resolved tt;
     measureFont := fun _ _ => (8%float, 16%float);
     path_normalize := fun d => d |}.

(** The engine could not be spawned. *)
Definition no_engine : world :=
  {| session_request := fun _ _ => Resolved VNull;
     startNeovim := Rejected (ErrorObj "spawn nvim ENOENT");
     measureFont := fun _ _ => (8%float, 16%float);
     path_normalize := fun d => d |}.

(** Version 0.2.1 is reported and every request but [method] resolves. *)
Definition failing (method : string) : world :=
  {| session_request := fun m a =>
       if (m =? method)%string then Rejected (ErrorObj "refused")
       else Sample.session 0 2 1 m a;
     startNeovim := Resolved tt;
     measureFont := fun _ _ => (8%float, 16%float);
     path_normalize := fun d => d |}.

(** Every request resolves to the string ["/work/"]; [path.normalize]
    drops a trailing slash. *)
Definition in_work : world :=
  {| session_request := fun _ _ => Resolved (VStr "/work/");
     startNeovim := Resolved tt;
     measureFont := fun _ _ => (8%float, 16%float);
     path_normalize := fun d => if (d =? "/work/")%string then "/work" else d |}.

(** A measured instance that has not been started. *)
Definition measured : driver :=
  {| _config := Sample.plain; _isLeaving := false; _initPromise := None;
     _fontFamily := "Consolas"; _fontSize := "12px";
     _fontWidthInPixels := Some 8%float;
     _fontHeightInPixels := Some 16%float;
     _lastHeightInPixels := 600%float;
     _lastWidthInPixels := 800%float;
     _rows := None; _cols := None;
     _pendingScrollTimeout := None; next_timer := 1%positive |}.

Definition scrolling : driver :=
  set_pendingScrollTimeout (Some 1%positive) 2%positive Sample.fresh.

End Worlds.

(** The session answers the version query with a reply that carries the
    three numbers. *)
Definition reports_version (w : world) (major minor patch : number) : Prop :=
  exists info entry version,
    session_request w "nvim_get_api_info" [] = Resolved info /\
    JS.index info 1 = Ok entry /\
    JS.prop entry "version" = Ok version /\
    JS.prop version "major" = Ok (VNum major) /\
    JS.prop version "minor" = Ok (VNum minor) /\
    JS.prop version "patch" = Ok (VNum patch).

(** The effects of [start] up to and including the attach request. *)
Definition attach_trace (s : driver) (major minor patch : number)
  (options : value) : list effect :=
  [started;
   Request "nvim_get_api_info" [];
   ConsoleLog "Neovim version reported as "
     [VNum major; VNum minor; VNum patch];
   Request "nvim_ui_attach"
     [VNum (snd (_getSize s)); VNum (fst (_getSize s)); options]].

Definition set_title_trace : list effect :=
  [Log info "Attach success" None;
   Log verbose "[NeovimInstance] Executing command: "
     (Some (VStr "set title"));
   Request "nvim_command" [VStr "set title"]].

Definition connect_request : effect :=
  Request "nvim_call_function" [VStr "OniConnect"; VArr []].

Definition override_warning (s : driver) : list effect :=
  match debug_fixedSize (_config s) with
  | Some _ => [Log warn "Overriding screen size based on debug.fixedSize" None]
  | None => []
  end.

(** The request of a resize to [size] = (rows, columns), with what follows
    it when the session rejects it. *)
Definition resize_request_trace (w : world) (size : number * number)
  : list effect :=
  let args := [VNum (snd size); VNum (fst size)] in
  match session_request w "nvim_ui_try_resize" args with
  | Resolved _ => [Request "nvim_ui_try_resize" args]
  | Rejected e => [Request "nvim_ui_try_resize" args; UnhandledRejection e]
  end.

Definition finite_size (size : number * number) : bool :=
  negb (is_NaN (fst size)) && negb (is_NaN (snd size)).

(** An [oni_plugin_notify] payload: the sub-method and its arguments in
    the first element, anything after it. *)
Definition plugin_payload (pluginMethod : string) (subArgs others : list value)
  : value :=
  VArr (VArr (VStr pluginMethod :: subArgs) :: others).

Definition getcwd_request : effect := Request "nvim_eval" [VStr "getcwd()"].

(** The completion item decoded from the fields of one menu entry. *)
Definition completion_of (fields : list value) : value :=
  VObj [("word", nth 0 fields VUndefined);
        ("kind", nth 1 fields VUndefined);
        ("menu", nth 2 fields VUndefined);
        ("info", nth 3 fields VUndefined)].

Definition popupmenu_info (entries : list (list value))
  (selected row col : value) : value :=
  VObj [("items", VArr (map completion_of entries));
        ("selectedIndex", selected);
        ("row", row);
        ("col", col)].

(** The commands whose case reads no argument, and those whose case reads
    an argument tuple. *)
Definition commands_without_arguments : list string :=
  ["set_icon"; "eol_clear"; "clear"; "mouse_on"; "popupmenu_hide"; "bell"].

Definition commands_with_a_tuple : list string :=
  ["cursor_goto"; "set_scroll_region"; "scroll"; "highlight_set"; "resize";
   "set_title"; "update_bg"; "update_fg"; "mode_change"; "popupmenu_select";
   "popupmenu_show"; "tabline_update"].

Definition list_bufs_request : effect := Request "nvim_list_bufs" [].

(** The [setFont] action for what was measured. *)
Definition font_action (w : world) (fontFamily fontSize : string)
  (linePadding : float) : effect :=
  let measured := measureFont w fontFamily fontSize in
  EmitAction
    (Actions.setFont fontFamily fontSize (fst measured)
       (snd measured + linePadding)%float linePadding).

(** A tabline entry as the engine sends it, and as it is passed on. *)
Definition tab_object (tab : value * value) : value :=
  VObj [("tab", VObj [("id", fst tab)]); ("name", snd tab)].

Definition tab_summary (tab : value * value) : value :=
  VObj [("id", fst tab); ("name", snd tab)].

(** * Attach negotiation *)

Lemma num_ge_Fin (a b : Z) : num_ge (Fin a) (Fin b) = (b <=? a).
Proof.
  unfold num_ge, num_gt, num_eq.
  destruct (Z.gtb_spec a b), (Z.eqb_spec a b), (Z.leb_spec b a);
    simpl; try reflexivity; lia.
Qed.

(** C2. The policy table of the attach negotiation: rule 1
    (major >= 0, minor >= 2, patch >= 1) gives rgb, external popup menu and
    external tabline; otherwise rule 2 (major = 0, minor = 2) gives rgb and
    external popup menu only; otherwise the version is refused with the
    "Unsupported version" error. *)
Theorem C2_startup_options_by_version (major minor patch : Z) :
  let options :=
    _getStartupOptionsForVersion (Fin major) (Fin minor) (Fin patch) in
  let rule1 := 0 <= major /\ 2 <= minor /\ 1 <= patch in
  let rule2 := major = 0 /\ minor = 2 in
  (rule1 -> options = Ok full_capabilities) /\
  (~ rule1 -> rule2 -> options = Ok basic_capabilities) /\
  (~ rule1 -> ~ rule2 -> options = Exn unsupported).
Proof.
  cbv zeta. unfold _getStartupOptionsForVersion.
  rewrite !num_ge_Fin. unfold num_eq.
  destruct (Z.leb_spec 0 major), (Z.leb_spec 2 minor), (Z.leb_spec 1 patch),
    (Z.eqb_spec major 0), (Z.eqb_spec minor 2); simpl;
    repeat split; intros; try reflexivity; try lia;
    try (exfalso; tauto).
Qed.

Lemma C2_startup_options_witness :
  _getStartupOptionsForVersion (Fin 0) (Fin 2) (Fin 1) = Ok full_capabilities
  /\ _getStartupOptionsForVersion (Fin 0) (Fin 2) (Fin 0)
     = Ok basic_capabilities
  /\ _getStartupOptionsForVersion (Fin 0) (Fin 1) (Fin 5) = Exn unsupported.
Proof.
  split; [| split].
  - apply (C2_startup_options_by_version 0 2 1). lia.
  - apply (C2_startup_options_by_version 0 2 0); lia.
  - apply (C2_startup_options_by_version 0 1 5); lia.
Defined.

(** The options computed for the reported version are the ones sent with
    the attach request. *)
Lemma attachUI_sends_options (w : world) (s : driver) (columns rows : number)
  (info entry version options : value) (major minor patch : number) :
  session_request w "nvim_get_api_info" [] = Resolved info ->
  JS.index info 1 = Ok entry ->
  JS.prop entry "version" = Ok version ->
  JS.prop version "major" = Ok (VNum major) ->
  JS.prop version "minor" = Ok (VNum minor) ->
  JS.prop version "patch" = Ok (VNum patch) ->
  _getStartupOptionsForVersion major minor patch = Ok options ->
  requests (trace (_attachUI columns rows w s)) =
    [Request "nvim_get_api_info" [];
     Request "nvim_ui_attach" [VNum columns; VNum rows; options]].
Proof.
  intros Hinfo Hentry Hversion Hmajor Hminor Hpatch Hoptions.
  unfold _attachUI, getApiVersion, bind, request, lift, emit, ret.
  rewrite Hinfo, Hentry, Hversion, Hmajor, Hminor, Hpatch. simpl.
  rewrite Hoptions.
  destruct (session_request w "nvim_ui_attach" _); reflexivity.
Qed.

(** * Buffer synchronisation *)

(** C3. A full buffer update whose end line is above 5000 does nothing at
    all: no request, no event, no error, the state is untouched.  Otherwise
    the first and only request is the line fetch for
    [startLine - 1, endLine) of the context's buffer.  The same holds when
    the trigger arrives as an [oni_plugin_notify] notification. *)
Theorem C3_full_buffer_update_ceiling (w : world) (s : driver)
  (fields : list (string * value)) (startLine endLine : Z) :
  let context := VObj fields in
  let direct :=
    _onFullBufferUpdate context (Fin startLine) (Fin endLine) w s in
  let routed :=
    on_notification (VStr "oni_plugin_notify")
      (buffer_update_payload context startLine endLine) w s in
  let fetch :=
    Request "nvim_buf_get_lines" (fetch_args fields startLine endLine) in
  (endLine > 5000 ->
     direct = (Ok tt, s, []) /\ routed = (Ok tt, s, [])) /\
  (endLine <= 5000 ->
     requests (trace direct) = [fetch] /\ hd_error (trace direct) = Some fetch
     /\ requests (trace routed) = [fetch]
     /\ hd_error (trace routed) = Some fetch).
Proof.
  cbv zeta. split; intros Hend.
  - unfold on_notification, buffer_update_payload, _onFullBufferUpdate.
    simpl. unfold plugin_switch, plugin_buffer_update, _onFullBufferUpdate.
    simpl. unfold bind, lift, floating, ret. simpl.
    destruct (Z.gtb_spec endLine 5000); [split; reflexivity | lia].
  - unfold on_notification, buffer_update_payload. simpl.
    unfold plugin_switch, plugin_buffer_update, _onFullBufferUpdate.
    simpl. unfold bind, lift, floating, request, dispatch, emit, ret.
    simpl. destruct (Z.gtb_spec endLine 5000); [lia |].
    unfold fetch_args. simpl.
    destruct (session_request w "nvim_buf_get_lines" _);
      simpl; repeat split; reflexivity.
Qed.

Lemma C3_full_buffer_update_witness :
  requests
    (trace (on_notification (VStr "oni_plugin_notify")
              (buffer_update_payload Sample.context 1 5000)
              (Sample.world_of 0 2 1) Sample.fresh))
  = [Request "nvim_buf_get_lines"
       [VNum (Fin 3); VNum (Fin 0); VNum (Fin 5000); VBool false]]
  /\ on_notification (VStr "oni_plugin_notify")
       (buffer_update_payload Sample.context 1 5001)
       (Sample.world_of 0 2 1) Sample.fresh
     = (Ok tt, Sample.fresh, []).
Proof.
  split.
  - apply (C3_full_buffer_update_ceiling (Sample.world_of 0 2 1) Sample.fresh
             [("bufferNumber", VNum (Fin 3))] 1 5000). lia.
  - apply (C3_full_buffer_update_ceiling (Sample.world_of 0 2 1) Sample.fresh
             [("bufferNumber", VNum (Fin 3))] 1 5001). lia.
Defined.

(** C8, as the spec has it, fails: when the line fetch is rejected nothing
    reaches the Error feed. *)
Lemma C8_rejected_fetch_raises_no_error_event :
  session_request (Sample.world_of 0 2 1) "nvim_buf_get_lines"
    (fetch_args [("bufferNumber", VNum (Fin 3))] 1 10)
  = Rejected (ErrorObj "channel closed")
  /\ error_events
       (trace (on_notification (VStr "oni_plugin_notify")
                 (buffer_update_payload Sample.context 1 10)
                 (Sample.world_of 0 2 1) Sample.fresh))
     = [].
Proof. split; reflexivity. Qed.

(** C8, amended.  Within the ceiling, a fetch that succeeds is followed by
    one BufferUpdate(Full) event carrying the context and the returned
    lines.  A fetch that fails rejects the promise of
    [_onFullBufferUpdate]; the notification handler drops that promise, so
    no BufferUpdate and no Error event is dispatched. *)
Theorem C8_fetch_outcome (w : world) (s : driver)
  (fields : list (string * value)) (startLine endLine : Z) :
  endLine <= 5000 ->
  let context := VObj fields in
  let args := fetch_args fields startLine endLine in
  let fetch := Request "nvim_buf_get_lines" args in
  let direct :=
    _onFullBufferUpdate context (Fin startLine) (Fin endLine) w s in
  let routed :=
    on_notification (VStr "oni_plugin_notify")
      (buffer_update_payload context startLine endLine) w s in
  (forall lines,
     session_request w "nvim_buf_get_lines" args = Resolved lines ->
     routed =
       (Ok tt, s,
        [fetch; Dispatch (_onFullBufferUpdateEvent context lines)])) /\
  (forall e,
     session_request w "nvim_buf_get_lines" args = Rejected e ->
     direct = (Exn e, s, [fetch]) /\
     routed = (Ok tt, s, [fetch; UnhandledRejection e]) /\
     error_events (trace routed) = [] /\
     buffer_updates (trace routed) = []).
Proof.
  intros Hend. cbv zeta.
  unfold on_notification, buffer_update_payload. simpl.
  unfold plugin_switch, plugin_buffer_update, _onFullBufferUpdate. simpl.
  unfold bind, lift, floating, request, dispatch, emit, ret. simpl.
  destruct (Z.gtb_spec endLine 5000); [lia |].
  unfold fetch_args. simpl.
  split; intros r Hreply; rewrite Hreply; simpl; repeat split; reflexivity.
Qed.

Lemma C8_fetch_outcome_witness :
  on_notification (VStr "oni_plugin_notify")
    (buffer_update_payload Sample.context 1 10)
    (Sample.world_of 0 2 1) Sample.fresh
  = (Ok tt, Sample.fresh,
     [Request "nvim_buf_get_lines"
        [VNum (Fin 3); VNum (Fin 0); VNum (Fin 10); VBool false];
      UnhandledRejection (ErrorObj "channel closed")]).
Proof.
  apply (C8_fetch_outcome (Sample.world_of 0 2 1) Sample.fresh
           [("bufferNumber", VNum (Fin 3))] 1 10); [lia | reflexivity].
Defined.

(** * The stub members of the interface *)

(** C10. Whatever the state of the driver, [cursorPosition] is row 0,
    column 0 and [screenToPixels] is x 0, y 0 for every argument. *)
Theorem C10_cursor_and_pixels_are_stubs (s : driver) (r c : number) :
  cursorPosition s = {| row := 0; column := 0 |} /\
  screenToPixels s r c = {| x := 0; y := 0 |}.
Proof. split; reflexivity. Qed.

(** * Start and an unsupported version *)

(** C9, as the spec has it, fails: for a session that reports 0.1.5 the
    promise returned by [start] fulfils. *)
Lemma C9_start_fulfils_on_unsupported_version :
  _getStartupOptionsForVersion (Fin 0) (Fin 1) (Fin 5) = Exn unsupported
  /\ outcome (start (Sample.world_of 0 1 5) Sample.fresh) = Ok Fulfilled
  /\ outcome (start (Sample.world_of 0 1 5) Sample.fresh)
     <> Ok (RejectedWith unsupported).
Proof. repeat split; try reflexivity. discriminate. Qed.

(** C9, amended.  When the spawned engine reports a version that the
    negotiation refuses, the refusal is caught by the rejection handler of
    the attach step: it is logged and dispatched once on the Error feed, no
    attach request and no later command is sent, and the promise returned
    by [start] (the stored [_initPromise]) fulfils. *)
Theorem C9_unsupported_version_reaches_error_feed (w : world) (s : driver)
  (info entry version : value) (major minor patch : number) (err : thrown) :
  startNeovim w = Resolved tt ->
  session_request w "nvim_get_api_info" [] = Resolved info ->
  JS.index info 1 = Ok entry ->
  JS.prop entry "version" = Ok version ->
  JS.prop version "major" = Ok (VNum major) ->
  JS.prop version "minor" = Ok (VNum minor) ->
  JS.prop version "patch" = Ok (VNum patch) ->
  _getStartupOptionsForVersion major minor patch = Exn err ->
  outcome (start w s) = Ok Fulfilled /\
  _initPromise (final (start w s)) = Some Fulfilled /\
  error_events (trace (start w s)) = [Dispatch (_onErrorEvent err)] /\
  requests (trace (start w s)) = [Request "nvim_get_api_info" []].
Proof.
  intros Hspawn Hinfo Hentry Hversion Hmajor Hminor Hpatch Hrefused.
  unfold start, start_assign, start_settle, attempt, start_chain, then2,
    _attachUI, getApiVersion, _onError, dispatch, bind, request, lift, emit,
    modify, get, ask, ret.
  rewrite Hspawn. simpl.
  rewrite Hinfo, Hentry, Hversion, Hmajor, Hminor, Hpatch. simpl.
  rewrite Hrefused. simpl. repeat split; reflexivity.
Qed.

Lemma C9_unsupported_version_witness :
  outcome (start (Sample.world_of 0 1 5) Sample.fresh) = Ok Fulfilled /\
  _initPromise (final (start (Sample.world_of 0 1 5) Sample.fresh))
  = Some Fulfilled /\
  error_events (trace (start (Sample.world_of 0 1 5) Sample.fresh))
  = [Dispatch (_onErrorEvent unsupported)] /\
  requests (trace (start (Sample.world_of 0 1 5) Sample.fresh))
  = [Request "nvim_get_api_info" []].
Proof.
  apply (C9_unsupported_version_reaches_error_feed
           (Sample.world_of 0 1 5) Sample.fresh
           (Sample.api_info 0 1 5)
           (VObj [("version",
                   VObj [("major", VNum (Fin 0)); ("minor", VNum (Fin 1));
                         ("patch", VNum (Fin 5))])])
           (VObj [("major", VNum (Fin 0)); ("minor", VNum (Fin 1));
                  ("patch", VNum (Fin 5))])
           (Fin 0) (Fin 1) (Fin 5) unsupported); reflexivity.
Defined.

(** * Laws of the monad *)

Lemma run_eta {A : Type} (x : result A * driver * list effect) :
  x = (outcome x, final x, trace x).
Proof. destruct x as [[r s] t]. reflexivity. Qed.

Lemma bind_run {A B : Type} (m : M A) (f : A -> M B) (w : world)
  (s s1 : driver) (a : A) (t1 : list effect) :
  m w s = (Ok a, s1, t1) ->
  bind m f w s = after_trace t1 (f a w s1).
Proof.
  intros Hm. unfold bind, after_trace. rewrite Hm.
  destruct (f a w s1) as [[r s2] t2]. reflexivity.
Qed.

Lemma bind_assoc {A B C : Type} (m : M A) (f : A -> M B) (g : B -> M C)
  (w : world) (s : driver) :
  bind (bind m f) g w s = bind m (fun a => bind (f a) g) w s.
Proof.
  unfold bind. destruct (m w s) as [[[a | e |] s1] t1]; try reflexivity.
  destruct (f a w s1) as [[[b | e |] s2] t2]; try reflexivity.
  destruct (g b w s2) as [[r s3] t3]. rewrite app_assoc. reflexivity.
Qed.

Lemma after_trace_after_trace {A : Type} (t t' : list effect)
  (x : result A * driver * list effect) :
  after_trace t (after_trace t' x) = after_trace (t ++ t') x.
Proof. unfold after_trace. simpl. rewrite app_assoc. reflexivity. Qed.

Lemma forEach_cons_run (f : value -> M unit) (x : value) (rest : list value)
  (w : world) (s s1 : driver) (t1 : list effect) :
  f x w s = (Ok tt, s1, t1) ->
  forEach f (x :: rest) w s = after_trace t1 (forEach f rest w s1).
Proof.
  intros Hx.
  exact (bind_run (f x) (fun _ => forEach f rest) w s s1 tt t1 Hx).
Qed.

Lemma forEach_app_run (f : value -> M unit) (before after : list value)
  (w : world) (s s1 : driver) (t1 : list effect) :
  forEach f before w s = (Ok tt, s1, t1) ->
  forEach f (before ++ after) w s = after_trace t1 (forEach f after w s1).
Proof.
  revert s t1. induction before as [| x before IH]; intros s t1 Hbefore.
  - simpl in *. unfold ret in Hbefore. injection Hbefore as <- <-.
    apply run_eta.
  - simpl in Hbefore. unfold bind in Hbefore.
    destruct (f x w s) as [[[[] | e |] s2] t2] eqn:Hx; try discriminate.
    destruct (forEach f before w s2) as [[r s3] t3] eqn:Hrest.
    injection Hbefore as -> -> <-.
    simpl app. rewrite (forEach_cons_run _ _ _ _ _ _ _ Hx).
    rewrite (IH _ _ Hrest). apply after_trace_after_trace.
Qed.

(** * Invariants of a computation *)

Section Respects.

Variable P : effect -> Prop.
Variable R : driver -> driver -> Prop.
Hypothesis R_refl : forall s, R s s.
Hypothesis R_trans : forall a b c, R a b -> R b c -> R a c.

Lemma respects_ret {A : Type} (a : A) : respects P R (ret a).
Proof using R_refl R_trans. intros w s. simpl. auto. Qed.

Lemma respects_throw {A : Type} (e : thrown) : respects P R (@throw A e).
Proof using R_refl R_trans. intros w s. simpl. auto. Qed.

Lemma respects_lift {A : Type} (r : result A) : respects P R (lift r).
Proof using R_refl R_trans. intros w s. simpl. auto. Qed.

Lemma respects_get : respects P R get.
Proof using R_refl R_trans. intros w s. simpl. auto. Qed.

Lemma respects_ask : respects P R ask.
Proof using R_refl R_trans. intros w s. simpl. auto. Qed.

Lemma respects_emit (e : effect) : P e -> respects P R (emit e).
Proof using R_refl R_trans. intros He w s. simpl. auto. Qed.

Lemma respects_modify (f : driver -> driver) :
  (forall s, R s (f s)) -> respects P R (modify f).
Proof using R_refl R_trans. intros Hf w s. simpl. auto. Qed.

Lemma respects_request (method : string) (args : list value) :
  P (Request method args) -> respects P R (request method args).
Proof using R_refl R_trans.
  intros Hp w s. unfold request.
  destruct (session_request w method args); simpl; auto.
Qed.

Lemma respects_bind {A B : Type} (m : M A) (f : A -> M B) :
  respects P R m -> (forall a, respects P R (f a)) -> respects P R (bind m f).
Proof using R_refl R_trans.
  intros Hm Hf w s. unfold bind. specialize (Hm w s).
  destruct (m w s) as [[[a | e |] s1] t1]; simpl in *; try exact Hm.
  destruct Hm as [Ht1 Hs1]. specialize (Hf a w s1).
  destruct (f a w s1) as [[r s2] t2]. simpl in *.
  destruct Hf as [Ht2 Hs2]. split.
  - apply Forall_app. auto.
  - eapply R_trans; eassumption.
Qed.

Lemma respects_bind_lift {A B : Type} (r : result A) (f : A -> M B) :
  (forall a, r = Ok a -> respects P R (f a)) -> respects P R (bind (lift r) f).
Proof using R_refl R_trans.
  intros Hf w s. unfold bind, lift.
  destruct r as [a | e |]; simpl; auto.
  specialize (Hf a eq_refl w s).
  destruct (f a w s) as [[r s2] t2]. exact Hf.
Qed.

Lemma respects_floating {A : Type} (m : M A) :
  (forall e, P (UnhandledRejection e)) -> respects P R m ->
  respects P R (floating m).
Proof using R_refl R_trans.
  intros Hp Hm w s. unfold floating. specialize (Hm w s).
  destruct (m w s) as [[[a | e |] s1] t1]; simpl in *; try exact Hm.
  destruct Hm as [Ht1 Hs1]. split; [| exact Hs1].
  apply Forall_app. auto.
Qed.

Lemma respects_attempt {A : Type} (m : M A) :
  respects P R m -> respects P R (attempt m).
Proof using R_refl R_trans.
  intros Hm w s. unfold attempt. specialize (Hm w s).
  destruct (m w s) as [[[a | e |] s1] t1]; exact Hm.
Qed.

Lemma respects_then2 {A B : Type} (p : M A) (f : A -> M B)
  (g : thrown -> M B) :
  respects P R p -> (forall a, respects P R (f a)) -> (forall e, respects P R (g e)) ->
  respects P R (then2 p f g).
Proof using R_refl R_trans.
  intros Hp Hf Hg w s. unfold then2. specialize (Hp w s).
  destruct (p w s) as [[[a | e |] s1] t1]; simpl in *; try exact Hp;
    destruct Hp as [Ht1 Hs1].
  - specialize (Hf a w s1). destruct (f a w s1) as [[r s2] t2].
    simpl in *. destruct Hf. split;
      [apply Forall_app; auto | eapply R_trans; eassumption].
  - specialize (Hg e w s1). destruct (g e w s1) as [[r s2] t2].
    simpl in *. destruct Hg. split;
      [apply Forall_app; auto | eapply R_trans; eassumption].
Qed.

Lemma respects_forEach (f : value -> M unit) (items : list value) :
  (forall x, respects P R (f x)) -> respects P R (forEach f items).
Proof using R_refl R_trans.
  intros Hf. induction items as [| x rest IH]; simpl.
  - apply respects_ret.
  - apply respects_bind; [apply Hf | intros _; exact IH].
Qed.

Lemma respects_mapM (f : value -> M value) (items : list value) :
  (forall x, respects P R (f x)) -> respects P R (mapM f items).
Proof using R_refl R_trans.
  intros Hf. induction items as [| x rest IH]; simpl.
  - apply respects_ret.
  - apply respects_bind; [apply Hf | intros y].
    apply respects_bind; [exact IH | intros ys; apply respects_ret].
Qed.

Lemma respects_array_map (v : value) (f : value -> M value) :
  (forall x, respects P R (f x)) -> respects P R (array_map v f).
Proof using R_refl R_trans.
  intros Hf. destruct v; simpl; try apply respects_throw.
  apply respects_mapM. exact Hf.
Qed.

End Respects.

Create HintDb driver discriminated.

#[local] Hint Unfold
  _onError command callFunction eval getContext getCurrentWorkingDirectory
  getApiVersion _updateProcessDirectory _onFullBufferUpdate _attachUI
  _resizeInternal resize setFont _dispatchScrollEvent scroll_timeout
  first_tuple cursor_goto put set_scroll_region scroll highlight_set
  redraw_resize set_title update_bg update_fg mode_change popupmenu_select
  completion_item popupmenu_show tab_entry tabline_update bell redraw_switch
  redraw_command _handleNotification plugin_event plugin_buffer_update
  plugin_incremental_buffer_update plugin_switch on_notification on_request
  on_error on_disconnect start_assign start_chain : driver.

(** One step through the structure of a method; [side] closes the
    conditions on an emitted effect or a written state. *)
Ltac respects_step side :=
  lazymatch goal with
  | |- respects _ _ (bind (lift _) _) =>
      apply respects_bind_lift; [assumption | assumption | intros ? ?]
  | |- respects _ _ (bind _ _) =>
      apply respects_bind; [assumption | assumption | | intros ?]
  | |- respects _ _ (ret _) => apply respects_ret; assumption
  | |- respects _ _ (throw _) => apply respects_throw; assumption
  | |- respects _ _ (lift _) => apply respects_lift; assumption
  | |- respects _ _ get => apply respects_get; assumption
  | |- respects _ _ ask => apply respects_ask; assumption
  | |- respects _ _ (emit _) =>
      apply respects_emit; [assumption | assumption | side]
  | |- respects _ _ (dispatch _) =>
      apply respects_emit; [assumption | assumption | side]
  | |- respects _ _ (modify _) =>
      apply respects_modify; [assumption | assumption | intros ?; side]
  | |- respects _ _ (request _ _) =>
      apply respects_request; [assumption | assumption | side]
  | |- respects _ _ (floating _) =>
      apply respects_floating; [assumption | assumption | intros ?; side |]
  | |- respects _ _ (attempt _) =>
      apply respects_attempt; [assumption | assumption |]
  | |- respects _ _ (then2 _ _ _) =>
      apply respects_then2; [assumption | assumption | | intros ? | intros ?]
  | |- respects _ _ (forEach _ _) =>
      apply respects_forEach; [assumption | assumption | intros ?]
  | |- respects _ _ (array_map _ _) =>
      apply respects_array_map; [assumption | assumption | intros ?]
  | |- respects _ _ (if ?b then _ else _) => destruct b eqn:?
  | |- respects _ _ (match ?x with _ => _ end) => destruct x eqn:?
  | |- respects _ _ _ => progress (autounfold with driver; cbv zeta)
  end.

Ltac respects_auto side := repeat respects_step side.

(** * Redraw notifications *)

Lemma filter_none {A : Type} (p : A -> bool) (l : list A) :
  Forall (fun a => p a = false) l -> filter p l = [].
Proof.
  induction 1 as [| a l Ha _ IH]; simpl; [reflexivity |].
  rewrite Ha. exact IH.
Qed.

Lemma handleNotification_no_redraw_complete (method args : value) :
  respects not_redraw_complete any_state (_handleNotification method args).
Proof.
  assert (Hrefl : forall s, any_state s s) by exact (fun _ => I).
  assert (Htrans : forall a b c, any_state a b -> any_state b c ->
                                 any_state a c)
    by exact (fun _ _ _ _ _ => I).
  respects_auto ltac:(solve [reflexivity | exact I]).
Qed.

(** C5, as the spec has it, fails: a command without the argument tuple
    its case reads ends the processing with a TypeError, after the
    actions of the commands before it and without RedrawComplete. *)
Lemma C5_no_redraw_complete_after_a_throw :
  on_notification (VStr "redraw")
    (VArr [VArr [VStr "clear"]; VArr [VStr "cursor_goto"]])
    (Sample.world_of 0 2 1) Sample.fresh
  = (Exn TypeError, Sample.fresh, [EmitAction Actions.clear])
  /\ redraw_completes
       (trace (on_notification (VStr "redraw")
                 (VArr [VArr [VStr "clear"]; VArr [VStr "cursor_goto"]])
                 (Sample.world_of 0 2 1) Sample.fresh))
     <> [Dispatch _onRedrawComplete].
Proof. split; [reflexivity | discriminate]. Qed.

(** C5, amended.  The interpreter itself never dispatches RedrawComplete.
    When it returns, the notification handler dispatches exactly one,
    after every effect of the payload; when a command throws, the
    exception leaves the handler and no RedrawComplete is dispatched. *)
Theorem C5_redraw_complete_follows_the_payload (w : world) (s : driver)
  (args : value) :
  let processed := _handleNotification (VStr "redraw") args w s in
  let whole := on_notification (VStr "redraw") args w s in
  redraw_completes (trace processed) = [] /\
  match outcome processed with
  | Ok _ =>
      whole = (Ok tt, final processed,
               trace processed ++ [Dispatch _onRedrawComplete]) /\
      redraw_completes (trace whole) = [Dispatch _onRedrawComplete]
  | Exn e =>
      whole = (Exn e, final processed, trace processed) /\
      redraw_completes (trace whole) = []
  | OutOfModel => whole = (OutOfModel, final processed, trace processed)
  end.
Proof.
  cbv zeta.
  assert (Hquiet :
            redraw_completes
              (trace (_handleNotification (VStr "redraw") args w s)) = []).
  { apply filter_none.
    apply (handleNotification_no_redraw_complete (VStr "redraw") args w s). }
  split; [exact Hquiet |].
  change (on_notification (VStr "redraw") args w s)
    with (bind (_handleNotification (VStr "redraw") args)
            (fun _ => dispatch _onRedrawComplete) w s).
  unfold bind.
  destruct (_handleNotification (VStr "redraw") args w s)
    as [[[[] | e |] s1] t1]; simpl in *.
  - split; [reflexivity |].
    unfold redraw_completes in *. rewrite filter_app, Hquiet. reflexivity.
  - split; [reflexivity | exact Hquiet].
  - reflexivity.
Qed.

(** * Which argument tuples a redraw command reads *)

Lemma last_item_snoc (more : list value) (t : value) :
  JS.last_item (VArr (more ++ [t])) = Ok t.
Proof.
  unfold JS.last_item, JS.index. rewrite length_app. simpl.
  replace (Z.of_nat (List.length more + 1) - 1) with
    (Z.of_nat (List.length more)) by lia.
  destruct (Z.ltb_spec (Z.of_nat (List.length more)) 0); [lia |].
  rewrite Nat2Z.id, app_nth2, Nat.sub_diag by lia. reflexivity.
Qed.

Lemma put_reads_all (rows : list (list value)) (w : world) (s : driver) :
  mapM (fun v => lift (JS.index v 0)) (map VArr rows) w s =
  (Ok (map (hd VUndefined) rows), s, []).
Proof.
  induction rows as [| r rows IH]; simpl; [reflexivity |].
  unfold bind at 1. unfold lift at 1. simpl.
  unfold bind at 1. rewrite IH. simpl.
  destruct r; reflexivity.
Qed.


(** * Unknown names *)

Lemma unknown_redraw_switch (command a : value) (w : world) (s : driver) :
  known_redraw command = false ->
  redraw_switch command a w s =
  (Ok tt, s, [Log warn "Unhandled command: " (Some command)]).
Proof.
  unfold known_redraw, redraw_commands. simpl. intros H.
  repeat (apply orb_false_iff in H;
          let H1 := fresh "H" in destruct H as [H1 H]).
  unfold redraw_switch.
  repeat match goal with
         | E : JS.is_str command _ = false |- _ => rewrite E; clear E
         end.
  reflexivity.
Qed.

Lemma unknown_plugin_switch (pluginMethod args0 : value) (w : world)
  (s : driver) :
  known_plugin pluginMethod = false ->
  plugin_switch pluginMethod args0 w s =
  (Ok tt, s,
   [Log warn "Unknown event from oni_plugin_notify: " (Some pluginMethod)]).
Proof.
  unfold known_plugin, plugin_methods. simpl. intros H.
  repeat (apply orb_false_iff in H;
          let H1 := fresh "H" in destruct H as [H1 H]).
  unfold plugin_switch.
  repeat match goal with
         | E : JS.is_str pluginMethod _ = false |- _ => rewrite E; clear E
         end.
  reflexivity.
Qed.

(** C4. An unknown name costs one warning and nothing else.
    - A redraw command whose name is no case label returns normally with
      the warning as its whole trace and the state untouched; the commands
      after it are run as they would be without it.
    - An [oni_plugin_notify] whose sub-method is no case label, and a
      notification whose method is neither [redraw] nor
      [oni_plugin_notify], return normally with one warning, no event
      dispatched and the state untouched. *)
Theorem C4_unknown_names_are_logged_and_skipped (w : world) (s : driver) :
  (forall command tuples,
     known_redraw command = false ->
     redraw_command (VArr (command :: tuples)) w s =
     (Ok tt, s, [Log warn "Unhandled command: " (Some command)])) /\
  (forall command tuples before after s1 t1,
     known_redraw command = false ->
     forEach redraw_command before w s = (Ok tt, s1, t1) ->
     on_notification (VStr "redraw")
       (VArr (before ++ VArr (command :: tuples) :: after)) w s =
     after_trace (t1 ++ [Log warn "Unhandled command: " (Some command)])
       (on_notification (VStr "redraw") (VArr after) w s1)) /\
  (forall args items,
     JS.index args 0 = Ok (VArr items) ->
     known_plugin (hd VUndefined items) = false ->
     on_notification (VStr "oni_plugin_notify") args w s =
     (Ok tt, s,
      [Log warn "Unknown event from oni_plugin_notify: "
         (Some (hd VUndefined items))])) /\
  (forall method args,
     JS.is_str method "redraw" = false ->
     JS.is_str method "oni_plugin_notify" = false ->
     on_notification method args w s =
     (Ok tt, s, [Log warn "Unknown notification: " (Some method)])).
Proof.
  assert (Hone : forall s0 command tuples,
            known_redraw command = false ->
            redraw_command (VArr (command :: tuples)) w s0 =
            (Ok tt, s0, [Log warn "Unhandled command: " (Some command)])).
  { intros s0 command tuples Hunknown.
    unfold redraw_command, bind, lift. simpl.
    rewrite (unknown_redraw_switch _ _ _ _ Hunknown). reflexivity. }
  split; [| split; [| split]].
  - intros. apply Hone. assumption.
  - intros command tuples before after s1 t1 Hunknown Hbefore.
    change (bind (forEach redraw_command
                    (before ++ VArr (command :: tuples) :: after))
              (fun _ => dispatch _onRedrawComplete) w s =
            after_trace (t1 ++ [Log warn "Unhandled command: " (Some command)])
              (bind (forEach redraw_command after)
                 (fun _ => dispatch _onRedrawComplete) w s1)).
    rewrite <- after_trace_after_trace.
    unfold bind at 1.
    rewrite (forEach_app_run _ _ _ _ _ _ _ Hbefore).
    rewrite (forEach_cons_run _ _ _ _ _ _ _ (Hone s1 command tuples Hunknown)).
    unfold bind, after_trace.
    destruct (forEach redraw_command after w s1) as [[[[] | e |] s2] t2];
      simpl; try reflexivity.
    unfold dispatch, emit. cbn [outcome final trace fst snd].
    rewrite <- app_assoc. reflexivity.
  - intros args items Hargs Hunknown.
    unfold on_notification. simpl. unfold bind, lift.
    rewrite Hargs. cbn [JS.shift fst snd].
    rewrite (unknown_plugin_switch _ _ _ _ Hunknown). reflexivity.
  - intros method args Hredraw Hplugin.
    unfold on_notification. rewrite Hredraw, Hplugin. reflexivity.
Qed.

Lemma redraw_command_array (command : value) (tuples : list value)
  (w : world) (s : driver) :
  redraw_command (VArr (command :: tuples)) w s =
  redraw_switch command (VArr tuples) w s.
Proof.
  unfold redraw_command, bind, lift. simpl.
  destruct (redraw_switch command (VArr tuples) w s) as [[r s1] t1].
  reflexivity.
Qed.

(** C1, as the spec has it, fails: [put] is neither [highlight_set] nor
    [mode_change], yet with two argument tuples it reads both. *)
Lemma C1_put_reads_every_tuple :
  redraw_command (VArr [VStr "put"; VArr [VStr "a"]; VArr [VStr "b"]])
    (Sample.world_of 0 2 1) Sample.fresh
  = (Ok tt, Sample.fresh, [EmitAction (Actions.put [VStr "a"; VStr "b"])])
  /\ redraw_command (VArr [VStr "put"; VArr [VStr "a"]; VArr [VStr "b"]])
       (Sample.world_of 0 2 1) Sample.fresh
     <> redraw_command (VArr [VStr "put"; VArr [VStr "a"]])
          (Sample.world_of 0 2 1) Sample.fresh.
Proof. split; [reflexivity | discriminate]. Qed.

(** C1, amended.  A command other than [put], [highlight_set] and
    [mode_change] behaves as if only its first argument tuple had been
    sent; [highlight_set] and [mode_change] behave as if only their last
    tuple had been sent; [put] takes the first field of every tuple, in
    order.  So [cursor_goto] with two tuples moves to the first position,
    and after two [highlight_set] commands in one batch the attributes in
    force are those of the second. *)
Theorem C1_tuples_read_by_a_command (w : world) (s : driver) (name : string)
  (t1 t : value) (rest more : list value) (rows : list (list value))
  (row1 col1 row2 col2 : value) (h1 h2 : list (string * value)) :
  name <> "put" -> name <> "highlight_set" -> name <> "mode_change" ->
  redraw_command (VArr (VStr name :: t1 :: rest)) w s
  = redraw_command (VArr [VStr name; t1]) w s
  /\ redraw_command (VArr (VStr "highlight_set" :: more ++ [t])) w s
     = redraw_command (VArr [VStr "highlight_set"; t]) w s
  /\ redraw_command (VArr (VStr "mode_change" :: more ++ [t])) w s
     = redraw_command (VArr [VStr "mode_change"; t]) w s
  /\ redraw_command (VArr (VStr "put" :: map VArr rows)) w s
     = (Ok tt, s, [EmitAction (Actions.put (map (hd VUndefined) rows))])
  /\ redraw_command
       (VArr [VStr "cursor_goto"; VArr [row1; col1]; VArr [row2; col2]]) w s
     = (Ok tt, s, [EmitAction (Actions.createCursorGotoAction row1 col1)])
  /\ active_highlight
       (trace (_handleNotification (VStr "redraw")
                 (VArr [VArr [VStr "highlight_set"; VArr [VObj h1]];
                        VArr [VStr "highlight_set"; VArr [VObj h2]]]) w s))
     = Some (highlight_of h2).
Proof.
  intros Hput Hhighlight Hmode.
  apply String.eqb_neq in Hput, Hhighlight, Hmode.
  rewrite !redraw_command_array.
  repeat split.
  - unfold redraw_switch. cbn [JS.is_str].
    rewrite Hput, Hhighlight, Hmode.
    repeat match goal with
           | |- context [(name =? ?c)%string] =>
               destruct (name =? c)%string; [reflexivity |]
           end.
    reflexivity.
  - change (redraw_switch (VStr "highlight_set") ?a w s)
      with (highlight_set a w s).
    unfold highlight_set, bind, lift.
    rewrite last_item_snoc. reflexivity.
  - change (redraw_switch (VStr "mode_change") ?a w s)
      with (mode_change a w s).
    unfold mode_change, bind, lift.
    rewrite last_item_snoc. reflexivity.
  - change (redraw_switch (VStr "put") ?a w s) with (put a w s).
    unfold put, array_map, bind. rewrite put_reads_all. reflexivity.
Qed.

(** * Leaving and disconnecting *)

#[local] Hint Unfold start_settle start handle : driver.

Lemma stays_leaving_refl (s : driver) : stays_leaving s s.
Proof. intros H. exact H. Qed.

Lemma stays_leaving_trans (a b c : driver) :
  stays_leaving a b -> stays_leaving b c -> stays_leaving a c.
Proof. unfold stays_leaving. auto. Qed.

Lemma same_leaving_refl (s : driver) : same_leaving s s.
Proof. reflexivity. Qed.

Lemma same_leaving_trans (a b c : driver) :
  same_leaving a b -> same_leaving b c -> same_leaving a c.
Proof. unfold same_leaving. congruence. Qed.

Lemma run_reactions_respects (P : effect -> Prop)
  (R : driver -> driver -> Prop) (outcome : settled unit)
  (reactions : list (string * list value)) :
  (forall s, R s s) -> (forall a b c, R a b -> R b c -> R a c) ->
  (forall m a, P (Request m a)) -> (forall e, P (UnhandledRejection e)) ->
  respects P R (run_reactions outcome reactions).
Proof.
  intros Hrefl Htrans Hrequest Hrejection.
  induction reactions as [| r rest IH]; simpl.
  - apply respects_ret; assumption.
  - apply respects_bind; [assumption | assumption | | intros _; exact IH].
    destruct outcome.
    + apply respects_floating; [assumption | assumption | assumption |].
      apply respects_request; [assumption | assumption | apply Hrequest].
    + apply respects_emit; [assumption | assumption | apply Hrejection].
Qed.

(** The equations collected on the way to the [VimLeave] branch contradict
    a notification that is not a [VimLeave]. *)
Ltac not_the_VimLeave_branch :=
  lazymatch goal with
  | Hnot : is_VimLeave _ = false |- _ =>
      exfalso; unfold is_VimLeave in Hnot;
      repeat match goal with
             | E : JS.is_str _ _ = _ |- _ => rewrite E in Hnot; clear E
             | E : JS.index _ _ = Ok _ |- _ => rewrite E in Hnot; clear E
             | E : JS.shift _ = Ok _ |- _ => rewrite E in Hnot; clear E
             end;
      discriminate Hnot
  end.

Lemma handle_stays_leaving (i : input) :
  respects anything stays_leaving (handle i).
Proof.
  pose proof stays_leaving_refl as Hrefl.
  pose proof stays_leaving_trans as Htrans.
  destruct i;
    respects_auto ltac:(solve [exact I | intros Hs; exact Hs
                        | intros Hs; reflexivity]);
    apply run_reactions_respects; solve [assumption | intros; exact I].
Qed.

Lemma handle_same_leaving (i : input) :
  is_VimLeave i = false ->
  respects not_leave same_leaving (handle i).
Proof.
  intros Hnot.
  pose proof same_leaving_refl as Hrefl.
  pose proof same_leaving_trans as Htrans.
  destruct i;
    respects_auto ltac:(first [solve [reflexivity] | not_the_VimLeave_branch]);
    apply run_reactions_respects; solve [assumption | intros; reflexivity].
Qed.

Lemma is_str_true (v : value) (name : string) :
  JS.is_str v name = true -> v = VStr name.
Proof.
  destruct v; simpl; try discriminate.
  intros H. apply String.eqb_eq in H. congruence.
Qed.

Lemma feed_stays_leaving (inputs : list input) (w : world) :
  forall s s' t,
    feed inputs w s = Some (s', t) ->
    _isLeaving s = true -> _isLeaving s' = true.
Proof.
  induction inputs as [| i rest IH]; simpl; intros s s' t Hfeed Hleaving.
  - injection Hfeed as <- _. exact Hleaving.
  - destruct (handle_stays_leaving i w s) as [_ Hstep].
    destruct (handle i w s) as [[r s1] t1]. simpl in Hstep.
    destruct (feed rest w s1) as [[s2 t2] |] eqn:Hrest;
      [| destruct r; discriminate].
    assert (s' = s2) as -> by (destruct r; congruence).
    apply (IH _ _ _ Hrest). apply Hstep. exact Hleaving.
Qed.

Lemma feed_same_leaving (inputs : list input) (w : world) :
  forall s s' t,
    no_VimLeave inputs = true ->
    feed inputs w s = Some (s', t) ->
    _isLeaving s' = _isLeaving s /\ leave_events t = [].
Proof.
  induction inputs as [| i rest IH]; simpl; intros s s' t Hnone Hfeed.
  - injection Hfeed as <- <-. split; reflexivity.
  - apply andb_true_iff in Hnone. destruct Hnone as [Hi Hnone].
    apply negb_true_iff in Hi.
    destruct (handle_same_leaving i Hi w s) as [Htrace Hstep].
    destruct (handle i w s) as [[r s1] t1]. simpl in Htrace, Hstep.
    destruct (feed rest w s1) as [[s2 t2] |] eqn:Hrest;
      [| destruct r; discriminate].
    assert (s' = s2 /\ t = t1 ++ t2) as [-> ->]
      by (destruct r; split; congruence).
    destruct (IH _ _ _ Hnone Hrest) as [Hflag Hleave]. split.
    + rewrite Hflag. exact Hstep.
    + unfold leave_events in *. rewrite filter_app, Hleave, app_nil_r.
      apply filter_none. exact Htrace.
Qed.

Lemma bind_lift_ok {A B : Type} (r : result A) (a : A) (f : A -> M B)
  (w : world) (s : driver) :
  r = Ok a -> bind (lift r) f w s = f a w s.
Proof.
  intros ->. unfold bind, lift.
  destruct (f a w s) as [[r s1] t1]. reflexivity.
Qed.

Lemma VimLeave_notification (w : world) (s : driver) (method args : value) :
  is_VimLeave (Notification method args) = true ->
  exists context,
    on_notification method args w s =
    (Ok tt, set_isLeaving true s,
     [Dispatch _onLeave; NotifyAutocommand (VStr "VimLeave") context;
      Emit "event" [VStr "VimLeave"; context]]).
Proof.
  unfold is_VimLeave. intros H.
  apply andb_true_iff in H. destruct H as [Hmethod H].
  apply is_str_true in Hmethod. subst method.
  destruct (JS.index args 0) as [pluginArgs | |] eqn:Hargs;
    try discriminate.
  destruct (JS.shift pluginArgs) as [shifted | |] eqn:Hshift;
    try discriminate.
  apply andb_true_iff in H. destruct H as [Hevent H].
  destruct (JS.index (snd shifted) 0) as [eventName | |] eqn:Hname;
    try discriminate.
  apply is_str_true in Hevent, H. subst eventName.
  destruct pluginArgs; try discriminate. simpl in Hshift.
  injection Hshift as <-. simpl in Hevent, Hname.
  exists (nth 1 (tl items) VUndefined).
  change (on_notification (VStr "oni_plugin_notify") args w s)
    with (bind (lift (JS.index args 0))
            (fun pluginArgs =>
               bind (lift (JS.shift pluginArgs))
                 (fun shifted => plugin_switch (fst shifted) (snd shifted)))
            w s).
  rewrite (bind_lift_ok _ _ _ _ _ Hargs).
  rewrite (bind_lift_ok _ (hd VUndefined items, VArr (tl items)) _ _ _
             eq_refl).
  cbn [fst snd]. rewrite Hevent.
  change (plugin_switch (VStr "event") (VArr (tl items)) w s)
    with (plugin_event (VArr (tl items)) w s).
  unfold plugin_event.
  rewrite (bind_lift_ok _ (VStr "VimLeave") _ _ _ Hname).
  reflexivity.
Qed.

(** C6. The notification that takes the [VimLeave] branch dispatches one
    Leave, no Error, and sets the flag; whatever is handled afterwards
    leaves the flag set, so the disconnect handler then does nothing.
    From a state where the flag is not set, after any inputs none of which
    is a [VimLeave] notification, the flag is still not set, no Leave has
    been dispatched, and the disconnect handler logs and dispatches
    exactly one Error. *)
Theorem C6_disconnect_after_VimLeave_or_not (w : world) (s : driver)
  (method args : value) (inputs : list input) (s' : driver)
  (t : list effect) :
  (is_VimLeave (Notification method args) = true ->
   let left := on_notification method args w s in
   outcome left = Ok tt /\
   _isLeaving (final left) = true /\
   leave_events (trace left) = [Dispatch _onLeave] /\
   error_events (trace left) = []) /\
  (_isLeaving s = true ->
   feed inputs w s = Some (s', t) ->
   _isLeaving s' = true /\
   on_disconnect w s' = (Ok tt, s', [])) /\
  (_isLeaving s = false ->
   no_VimLeave inputs = true ->
   feed inputs w s = Some (s', t) ->
   _isLeaving s' = false /\
   leave_events t = [] /\
   on_disconnect w s' =
     (Ok tt, s',
      [LogError disconnect_error; Dispatch (_onErrorEvent disconnect_error)])
   /\ error_events (trace (on_disconnect w s'))
      = [Dispatch (_onErrorEvent disconnect_error)]
   /\ leave_events (trace (on_disconnect w s')) = []).
Proof.
  split; [| split].
  - intros Hleave. cbv zeta.
    destruct (VimLeave_notification w s method args Hleave) as [ctx ->].
    repeat split.
  - intros Hleaving Hfeed.
    pose proof (feed_stays_leaving _ _ _ _ _ Hfeed Hleaving) as Hstill.
    split; [exact Hstill |].
    unfold on_disconnect, bind, get. simpl. rewrite Hstill. reflexivity.
  - intros Hnot Hnone Hfeed.
    destruct (feed_same_leaving _ _ _ _ _ Hnone Hfeed) as [Hflag Hleave].
    rewrite Hnot in Hflag.
    assert (Hrun : on_disconnect w s' =
                   (Ok tt, s',
                    [LogError disconnect_error;
                     Dispatch (_onErrorEvent disconnect_error)])).
    { unfold on_disconnect, bind, get. simpl. rewrite Hflag. reflexivity. }
    rewrite Hrun. repeat split; assumption.
Qed.

(** * Resizing *)

(** [_getSize] divides as the engine's host does: the quotient is rounded
    to the nearest double before the floor is taken, so 108 pixels of a
    7.2 pixel font are 15 columns although the double nearest to 7.2 goes
    less than 15 times into 108. *)
Lemma floor_div_takes_the_floor_of_the_double_quotient :
  floor_div 108%float (Some 7.2%float) = Fin 15
  /\ floor_div 104%float (Some 5.2%float) = Fin 20
  /\ floor_div 805%float (Some (16 + 0.1)%float) = Fin 49
  /\ floor_div 600%float (Some 16%float) = Fin 37
  /\ floor_div (-7)%float (Some 2%float) = Fin (-4)
  /\ floor_div 600%float (Some 0%float) = PosInfinity
  /\ floor_div 0%float (Some 0%float) = NaN
  /\ floor_div 600%float None = NaN.
Proof. repeat split. Qed.

(** C7, as the spec has it, fails when [debug.fixedSize] is configured.
    With the override at 10 rows of 20 columns, an attached instance whose
    geometry is 10x20 sends nothing although 800x600 pixels floor to
    37x100; and one whose geometry is 37x100 sends a resize to the
    override although the pixels floor to the geometry it has. *)
Lemma C7_fixed_size_override_decides :
  _getSize (set_lastPixels 800%float 600%float
              (Sample.attached Sample.fixed 10 20))
  = (Fin 37, Fin 100)
  /\ _initPromise (Sample.attached Sample.fixed 10 20) = Some Fulfilled
  /\ requests
       (trace (resize 800%float 600%float (Sample.world_of 0 2 1)
                 (Sample.attached Sample.fixed 10 20)))
     = []
  /\ requests
       (trace (resize 800%float 600%float (Sample.world_of 0 2 1)
                 (Sample.attached Sample.fixed 37 100)))
     = [Request "nvim_ui_try_resize" [VNum (Fin 20); VNum (Fin 10)]].
Proof. repeat split. Qed.

(** C7, amended.  Let (rows, cols) be the [debug.fixedSize] override when
    one is configured and otherwise the pixel dimensions floor-divided by
    the font metrics.  If (rows, cols) is the applied geometry, [resize]
    sends nothing and records only the pixel dimensions.  Otherwise it
    records (rows, cols) and: once the promise of [start] has fulfilled,
    sends exactly one [nvim_ui_try_resize] with (cols, rows); while that
    promise is pending, sends nothing and chains the same request on it;
    before [start], sends nothing. *)
Theorem C7_resize_requests (w : world) (s : driver) (width height : float)
  (rows cols : number) :
  size_to_apply (set_lastPixels width height s) = (rows, cols) ->
  let run := resize width height w s in
  (debug_fixedSize (_config s) = None ->
   rows = floor_div height (_fontHeightInPixels s) /\
   cols = floor_div width (_fontWidthInPixels s)) /\
  (same_geometry (rows, cols) s = true ->
   requests (trace run) = [] /\
   final run = set_lastPixels width height s) /\
  (same_geometry (rows, cols) s = false ->
   _rows (final run) = Some rows /\
   _cols (final run) = Some cols /\
   match _initPromise s with
   | Some Fulfilled =>
       requests (trace run) =
       [Request "nvim_ui_try_resize" [VNum cols; VNum rows]]
   | Some (Pending reactions) =>
       requests (trace run) = [] /\
       _initPromise (final run) =
       Some (Pending (reactions ++ [try_resize cols rows]))
   | Some (RejectedWith _) => requests (trace run) = []
   | None => requests (trace run) = [] /\ _initPromise (final run) = None
   end).
Proof.
  unfold size_to_apply, same_geometry. cbn [fst snd].
  intros Hsize. cbv zeta.
  unfold resize, _resizeInternal, bind, modify, get, emit, ret.
  cbn [_config set_lastPixels].
  change (_rows (set_lastPixels width height s)) with (_rows s).
  change (_cols (set_lastPixels width height s)) with (_cols s).
  change (_initPromise (set_lastPixels width height s))
    with (_initPromise s).
  simpl in Hsize.
  split; [| split].
  - intros Hnone. rewrite Hnone in Hsize. unfold _getSize in Hsize.
    simpl in Hsize. injection Hsize as <- <-. split; reflexivity.
  - intros Hsame.
    destruct (debug_fixedSize (_config s)) as [fixedSize |].
    + subst fixedSize. cbn [fst snd]. rewrite Hsame. split; reflexivity.
    + rewrite Hsize. cbn [fst snd]. rewrite Hsame. split; reflexivity.
  - intros Hdiffer.
    destruct (debug_fixedSize (_config s)) as [fixedSize |];
      [subst fixedSize | rewrite Hsize]; cbn [fst snd]; rewrite Hdiffer;
      (destruct (_initPromise s) as [[reactions | | e] |] eqn:Hinit;
       unfold floating, request, try_resize; cbn [fst snd];
       try destruct (session_request w "nvim_ui_try_resize" _);
       repeat split; exact Hinit).
Qed.

(** The request chained on a pending [_initPromise] is the one sent when
    the promise fulfils; a rejected promise sends none. *)
Lemma chained_resize_is_sent_on_fulfilment (w : world) (s : driver)
  (columns rows : number) (e : thrown) :
  requests
    (trace (run_reactions (Resolved tt) [try_resize columns rows] w s))
  = [Request "nvim_ui_try_resize" [VNum columns; VNum rows]]
  /\ requests
       (trace (run_reactions (Rejected e) [try_resize columns rows] w s))
     = [].
Proof.
  unfold run_reactions, try_resize, bind, floating, request, emit, ret.
  cbn [fst snd].
  destruct (session_request w "nvim_ui_try_resize" _); split; reflexivity.
Qed.

(** * Concrete runs of the theorems *)

Lemma C1_tuples_witness :
  redraw_command
    (VArr [VStr "update_bg"; VArr [Sample.num 7]; VArr [Sample.num 9]])
    Scenario.world Sample.fresh
  = redraw_command (VArr [VStr "update_bg"; VArr [Sample.num 7]])
      Scenario.world Sample.fresh.
Proof.
  apply (C1_tuples_read_by_a_command Scenario.world Sample.fresh "update_bg"
           (VArr [Sample.num 7]) VNull [VArr [Sample.num 9]] [] []
           VNull VNull VNull VNull [] []);
    apply String.eqb_neq; reflexivity.
Defined.

Lemma C4_unknown_names_witness :
  on_notification (VStr "redraw")
    (VArr [VArr [VStr "clear"]; VArr [VStr "mouse_off"];
           VArr [VStr "eol_clear"]])
    Scenario.world Sample.fresh
  = (Ok tt, Sample.fresh,
     [EmitAction Actions.clear;
      Log warn "Unhandled command: " (Some (VStr "mouse_off"));
      EmitAction Actions.clearToEndOfLine;
      Dispatch _onRedrawComplete])
  /\ on_notification (VStr "oni_plugin_notify")
       (VArr [VArr [VStr "oni_paste"; VNull]]) Scenario.world Sample.fresh
     = (Ok tt, Sample.fresh,
        [Log warn "Unknown event from oni_plugin_notify: "
           (Some (VStr "oni_paste"))])
  /\ on_notification (VStr "nvim_error_event") (VArr [])
       Scenario.world Sample.fresh
     = (Ok tt, Sample.fresh,
        [Log warn "Unknown notification: " (Some (VStr "nvim_error_event"))]).
Proof.
  destruct (C4_unknown_names_are_logged_and_skipped
              Scenario.world Sample.fresh) as (_ & Hredraw & Hplugin & Hmethod).
  split; [| split].
  - apply (Hredraw (VStr "mouse_off") [] [VArr [VStr "clear"]]
             [VArr [VStr "eol_clear"]] Sample.fresh
             [EmitAction Actions.clear]); reflexivity.
  - apply (Hplugin (VArr [VArr [VStr "oni_paste"; VNull]])
             [VStr "oni_paste"; VNull]); reflexivity.
  - apply (Hmethod (VStr "nvim_error_event") (VArr [])); reflexivity.
Defined.

Lemma C6_disconnect_witness :
  leave_events
    (trace (handle Scenario.VimLeave Scenario.world Sample.fresh))
  = [Dispatch _onLeave]
  /\ on_disconnect Scenario.world Scenario.leaving
     = (Ok tt, Scenario.leaving, [])
  /\ error_events (trace (on_disconnect Scenario.world Sample.fresh))
     = [Dispatch (_onErrorEvent disconnect_error)].
Proof.
  split; [| split].
  - apply (C6_disconnect_after_VimLeave_or_not Scenario.world Sample.fresh
             (VStr "oni_plugin_notify")
             (VArr [VArr [VStr "event"; VStr "VimLeave"; Sample.context]])
             [] Sample.fresh []).
    reflexivity.
  - apply (C6_disconnect_after_VimLeave_or_not Scenario.world Scenario.leaving
             VNull VNull [Scenario.redraw] Scenario.leaving
             [EmitAction Actions.clear;
              EmitAction
                (Actions.createCursorGotoAction (Sample.num 1) (Sample.num 2));
              Dispatch _onRedrawComplete]);
      reflexivity.
  - apply (C6_disconnect_after_VimLeave_or_not Scenario.world Sample.fresh
             VNull VNull [Scenario.redraw] Sample.fresh
             [EmitAction Actions.clear;
              EmitAction
                (Actions.createCursorGotoAction (Sample.num 1) (Sample.num 2));
              Dispatch _onRedrawComplete]);
      reflexivity.
Defined.

Lemma C7_resize_witness :
  requests
    (trace (resize 800%float 600%float Scenario.world
              (Sample.attached Sample.plain 37 100)))
  = []
  /\ requests
       (trace (resize 1600%float 600%float Scenario.world
                 (Sample.attached Sample.plain 37 100)))
     = [Request "nvim_ui_try_resize" [VNum (Fin 200); VNum (Fin 37)]].
Proof.
  split.
  - apply (C7_resize_requests Scenario.world
             (Sample.attached Sample.plain 37 100) 800%float 600%float
             (Fin 37) (Fin 100)); reflexivity.
  - apply (proj2 (proj2 (proj2 (proj2
             (C7_resize_requests Scenario.world
                (Sample.attached Sample.plain 37 100) 1600%float 600%float
                (Fin 37) (Fin 200) eq_refl)) eq_refl))).
Defined.

(** * What a notification can and cannot do *)

Lemma only_scroll_timer_refl (s : driver) : only_scroll_timer s s.
Proof. destruct s. reflexivity. Qed.

Lemma only_scroll_timer_trans (a b c : driver) :
  only_scroll_timer a b -> only_scroll_timer b c -> only_scroll_timer a c.
Proof.
  unfold only_scroll_timer. intros Hab Hbc.
  rewrite Hbc at 1. rewrite Hab. reflexivity.
Qed.

Lemma only_leaving_refl (s : driver) : only_leaving s s.
Proof. left. reflexivity. Qed.

Lemma only_leaving_trans (a b c : driver) :
  only_leaving a b -> only_leaving b c -> only_leaving a c.
Proof.
  unfold only_leaving. intros [-> | ->] [-> | ->]; auto.
Qed.

Lemma Forall_filter_none {A : Type} (p q : A -> bool) (l : list A) :
  (forall a, p a = true -> q a = false) ->
  Forall (fun a => p a = true) l -> filter q l = [].
Proof.
  intros Hpq Hl. apply filter_none.
  induction Hl as [| a l Ha _ IH]; constructor; auto.
Qed.

(** X1. Whatever its payload, a redraw notification emits only UI
    actions, title and tabline events, mode and popup-menu events,
    warnings, the scroll timer, the bell and RedrawComplete.  It sends no
    request, dispatches no Error, Leave or buffer event, and leaves every
    field of the instance as it was except the scroll-timer slot. *)
Theorem redraw_changes_only_the_scroll_timer (w : world) (s : driver)
  (args : value) :
  let run := on_notification (VStr "redraw") args w s in
  Forall redraw_effect (trace run) /\
  requests (trace run) = [] /\
  error_events (trace run) = [] /\
  leave_events (trace run) = [] /\
  buffer_updates (trace run) = [] /\
  only_scroll_timer s (final run).
Proof.
  pose proof only_scroll_timer_refl as Hrefl.
  pose proof only_scroll_timer_trans as Htrans.
  assert (H : respects redraw_effect only_scroll_timer
                (bind (_handleNotification (VStr "redraw") args)
                   (fun _ => dispatch _onRedrawComplete))).
  { respects_auto ltac:(solve [reflexivity]). }
  destruct (H w s) as [Htrace Hstate]. cbv zeta.
  change (on_notification (VStr "redraw") args w s)
    with (bind (_handleNotification (VStr "redraw") args)
            (fun _ => dispatch _onRedrawComplete) w s).
  repeat split; try assumption;
    apply (Forall_filter_none is_redraw_effect); try exact Htrace;
    intros [[] | | | | [] | | | | | |]; simpl; congruence.
Qed.

(** X2. Whatever its payload, an [oni_plugin_notify] notification emits
    only buffer, yank, command, directory and Leave events, the forwarded
    autocommand, line-fetch and working-directory requests and warnings.
    It emits no UI action, schedules no timer, dispatches no Error, and
    leaves the instance as it was except that it may set the leaving
    flag. *)
Theorem plugin_notification_changes_only_the_leaving_flag (w : world)
  (s : driver) (args : value) :
  let run := on_notification (VStr "oni_plugin_notify") args w s in
  Forall plugin_effect (trace run) /\
  error_events (trace run) = [] /\
  timeouts (trace run) = [] /\
  redraw_completes (trace run) = [] /\
  only_leaving s (final run).
Proof.
  pose proof only_leaving_refl as Hrefl.
  pose proof only_leaving_trans as Htrans.
  assert (H : respects plugin_effect only_leaving
                (bind (lift (JS.index args 0))
                   (fun pluginArgs =>
                      bind (lift (JS.shift pluginArgs))
                        (fun shifted =>
                           plugin_switch (fst shifted) (snd shifted))))).
  { respects_auto ltac:(solve [reflexivity | right; reflexivity]). }
  destruct (H w s) as [Htrace Hstate]. cbv zeta.
  change (on_notification (VStr "oni_plugin_notify") args w s)
    with (bind (lift (JS.index args 0))
            (fun pluginArgs =>
               bind (lift (JS.shift pluginArgs))
                 (fun shifted => plugin_switch (fst shifted) (snd shifted)))
            w s).
  repeat split; try assumption;
    apply (Forall_filter_none is_plugin_effect); try exact Htrace;
    intros [[] | | | | [] | | | | | |]; simpl; congruence.
Qed.

(** * The scroll debounce *)

Lemma redraw_switch_without_scroll (command a : value) :
  JS.is_str command "scroll" = false ->
  respects no_timeout eq (redraw_switch command a).
Proof.
  intros Hnot.
  assert (Hrefl : forall s : driver, s = s) by reflexivity.
  assert (Htrans : forall a b c : driver, a = b -> b = c -> a = c)
    by (intros; congruence).
  respects_auto ltac:(first [solve [reflexivity] | congruence]).
Qed.

Lemma scroll_debounced (a : value) (w : world) (s : driver) :
  debounced s (scroll a w s).
Proof.
  unfold debounced, scroll, first_tuple, _dispatchScrollEvent, bind, lift,
    emit, get, modify, ret.
  destruct (JS.index a 0) as [a0 | |]; simpl; auto.
  destruct (JS.index a0 0) as [count | |]; simpl; auto.
  destruct (_pendingScrollTimeout s) eqn:Hslot; simpl; auto.
  right. repeat split; congruence.
Qed.

Lemma redraw_command_debounced (a : value) (w : world) (s : driver) :
  debounced s (redraw_command a w s).
Proof.
  unfold redraw_command, bind, lift.
  destruct (JS.index a 0) as [command | |]; simpl;
    try (left; split; reflexivity).
  destruct (JS.slice1 a) as [a' | |]; simpl;
    try (left; split; reflexivity).
  assert (H : debounced s (redraw_switch command a' w s)).
  { destruct (JS.is_str command "scroll") eqn:Hscroll.
    - assert (Hrun : redraw_switch command a' w s = scroll a' w s).
      { apply is_str_true in Hscroll. subst command. reflexivity. }
      rewrite Hrun. apply scroll_debounced.
    - destruct (redraw_switch_without_scroll command a' Hscroll w s)
        as [Htrace Hstate].
      left. split; [apply filter_none; exact Htrace | congruence]. }
  destruct (redraw_switch command a' w s) as [[r s1] t1]. exact H.
Qed.

Lemma forEach_slot_taken (items : list value) (w : world) (s : driver) :
  _pendingScrollTimeout s <> None ->
  timeouts (trace (forEach redraw_command items w s)) = [] /\
  final (forEach redraw_command items w s) = s.
Proof.
  intros Htaken. induction items as [| a rest IH]; simpl; [auto |].
  destruct (redraw_command_debounced a w s) as [[Ht Hs] | [Hfree _]];
    [| contradiction].
  unfold bind.
  destruct (redraw_command a w s) as [[[[] | e |] s1] t1];
    unfold final, trace in *; simpl in *; subst s1; auto.
  destruct (forEach redraw_command rest w s) as [[r s2] t2].
  simpl in *. destruct IH as [IHt IHs]. unfold timeouts in *.
  rewrite filter_app, Ht, IHt. auto.
Qed.

Lemma forEach_at_most_one_timeout (items : list value) (w : world) :
  forall s,
    (List.length (timeouts (trace (forEach redraw_command items w s))) <= 1)%nat.
Proof.
  induction items as [| a rest IH]; intros s; simpl; [lia |].
  pose proof (redraw_command_debounced a w s) as Hstep.
  unfold bind.
  destruct (redraw_command a w s) as [[r s1] t1] eqn:Hrun.
  unfold debounced in Hstep. simpl in Hstep.
  assert (Hhead : (List.length (timeouts t1) <= 1)%nat).
  { destruct Hstep as [[-> _] | (_ & -> & _)]; simpl; lia. }
  destruct r as [[] | e |]; simpl; try exact Hhead.
  destruct (forEach redraw_command rest w s1) as [[r2 s2] t2] eqn:Hrest.
  simpl. unfold timeouts in *. rewrite filter_app, length_app.
  destruct Hstep as [[-> _] | (_ & -> & Htaken)].
  - specialize (IH s1). rewrite Hrest in IH. simpl in *. lia.
  - destruct (forEach_slot_taken rest w s1 Htaken) as [Hnone _].
    rewrite Hrest in Hnone. simpl in Hnone. unfold timeouts in Hnone.
    rewrite Hnone. simpl. lia.
Qed.

Lemma redraw_timeouts (items : list value) (w : world) (s : driver) :
  timeouts (trace (on_notification (VStr "redraw") (VArr items) w s)) =
  timeouts (trace (forEach redraw_command items w s)) /\
  final (on_notification (VStr "redraw") (VArr items) w s) =
  final (forEach redraw_command items w s).
Proof.
  change (on_notification (VStr "redraw") (VArr items) w s)
    with (bind (forEach redraw_command items)
            (fun _ => dispatch _onRedrawComplete) w s).
  unfold bind.
  destruct (forEach redraw_command items w s) as [[[[] | e |] s1] t1];
    simpl; auto.
  unfold timeouts. rewrite filter_app. simpl. rewrite app_nil_r. auto.
Qed.

(** X3. The scroll event is debounced: one redraw notification, however
    many [scroll] commands it carries, schedules at most one timer, and
    while a timer is pending it schedules none and leaves the instance
    untouched. *)
Theorem scroll_schedules_at_most_one_timer (w : world) (s : driver)
  (items : list value) :
  let run := on_notification (VStr "redraw") (VArr items) w s in
  (List.length (timeouts (trace run)) <= 1)%nat /\
  (_pendingScrollTimeout s <> None ->
   timeouts (trace run) = [] /\ final run = s).
Proof.
  cbv zeta. destruct (redraw_timeouts items w s) as [-> ->]. split.
  - apply forEach_at_most_one_timeout.
  - apply forEach_slot_taken.
Qed.

Lemma scroll_schedules_at_most_one_timer_witness :
  timeouts
    (trace (on_notification (VStr "redraw")
              (VArr [VArr [VStr "scroll"; VArr [Sample.num 1]];
                     VArr [VStr "scroll"; VArr [Sample.num 2]]])
              Scenario.world
              (set_pendingScrollTimeout (Some 1%positive) 2%positive
                 Sample.fresh)))
  = [].
Proof.
  apply (scroll_schedules_at_most_one_timer Scenario.world
           (set_pendingScrollTimeout (Some 1%positive) 2%positive
              Sample.fresh)).
  simpl. discriminate.
Defined.

(** X4. The timer callback asks for the context.  When the request
    resolves, it dispatches one Scroll event with the context and frees
    the slot.  When the request is rejected, no Scroll event is
    dispatched and the slot stays taken: from then on no redraw
    notification schedules a scroll timer again. *)
Theorem scroll_timeout_frees_the_slot_only_on_success (w : world)
  (s : driver) :
  (forall context,
     session_request w "nvim_call_function" [VStr "OniGetContext"; VArr []]
     = Resolved context ->
     scroll_timeout w s =
     (Ok tt, set_pendingScrollTimeout None (next_timer s) s,
      [get_context_request; Dispatch (_onScroll context)])) /\
  (forall e items,
     session_request w "nvim_call_function" [VStr "OniGetContext"; VArr []]
     = Rejected e ->
     _pendingScrollTimeout s <> None ->
     let after := scroll_timeout w s in
     after = (Ok tt, s, [get_context_request; UnhandledRejection e]) /\
     timeouts
       (trace (on_notification (VStr "redraw") (VArr items) w (final after)))
     = []).
Proof.
  split.
  - intros context Hreply.
    unfold scroll_timeout, getContext, callFunction, floating, bind,
      request, dispatch, emit, get, modify.
    rewrite Hreply. reflexivity.
  - intros e items Hreply Htaken. cbv zeta.
    assert (Hrun : scroll_timeout w s =
                   (Ok tt, s, [get_context_request; UnhandledRejection e])).
    { unfold scroll_timeout, getContext, callFunction, floating, bind,
        request, dispatch, emit, get, modify.
      rewrite Hreply. reflexivity. }
    rewrite Hrun. split; [reflexivity |].
    change (final (Ok tt, s, [get_context_request; UnhandledRejection e]))
      with s.
    destruct (redraw_timeouts items w s) as [-> _].
    apply forEach_slot_taken. exact Htaken.
Qed.

Lemma scroll_timeout_witness :
  scroll_timeout Scenario.world Worlds.scrolling
  = (Ok tt, set_pendingScrollTimeout None 2%positive Sample.fresh,
     [get_context_request; Dispatch (_onScroll VNull)])
  /\ timeouts
       (trace (on_notification (VStr "redraw")
                 (VArr [VArr [VStr "scroll"; VArr [Sample.num 1]]])
                 Worlds.down
                 (final (scroll_timeout Worlds.down Worlds.scrolling))))
     = [].
Proof.
  split.
  - apply (scroll_timeout_frees_the_slot_only_on_success Scenario.world
             Worlds.scrolling). reflexivity.
  - apply (scroll_timeout_frees_the_slot_only_on_success Worlds.down
             Worlds.scrolling) with (e := ErrorObj "channel closed").
    + reflexivity.
    + simpl. discriminate.
Defined.

(** * A command that throws *)

(** X5. A redraw command that throws ends the notification there: the
    effects of the commands before it stay, the commands after it are not
    interpreted whatever they are, and the exception leaves the handler
    without RedrawComplete. *)
Theorem redraw_stops_at_the_first_throw (w : world) (s s1 s2 : driver)
  (before after : list value) (bad : value) (t1 t2 : list effect)
  (e : thrown) :
  forEach redraw_command before w s = (Ok tt, s1, t1) ->
  redraw_command bad w s1 = (Exn e, s2, t2) ->
  on_notification (VStr "redraw") (VArr (before ++ bad :: after)) w s =
  (Exn e, s2, t1 ++ t2).
Proof.
  intros Hbefore Hbad.
  change (on_notification (VStr "redraw")
            (VArr (before ++ bad :: after)) w s)
    with (bind (forEach redraw_command (before ++ bad :: after))
            (fun _ => dispatch _onRedrawComplete) w s).
  unfold bind at 1.
  rewrite (forEach_app_run _ _ _ _ _ _ _ Hbefore).
  simpl forEach. unfold bind at 1. rewrite Hbad. reflexivity.
Qed.

Lemma redraw_stops_at_the_first_throw_witness :
  on_notification (VStr "redraw")
    (VArr [VArr [VStr "clear"]; VArr [VStr "scroll"];
           VArr [VStr "put"; VArr [VStr "a"]]])
    Scenario.world Sample.fresh
  = (Exn TypeError, Sample.fresh, [EmitAction Actions.clear]).
Proof.
  apply (redraw_stops_at_the_first_throw Scenario.world Sample.fresh
           Sample.fresh Sample.fresh [VArr [VStr "clear"]]
           [VArr [VStr "put"; VArr [VStr "a"]]] (VArr [VStr "scroll"])
           [EmitAction Actions.clear] [] TypeError); reflexivity.
Defined.

(** * How start settles *)

Lemma start_chain_keeps_initPromise :
  respects anything same_initPromise start_chain.
Proof.
  assert (Hrefl : forall s, same_initPromise s s) by reflexivity.
  assert (Htrans : forall a b c, same_initPromise a b ->
                                 same_initPromise b c -> same_initPromise a c)
    by (unfold same_initPromise; intros; congruence).
  respects_auto ltac:(solve [exact I | reflexivity]).
Qed.

Lemma run_reactions_resolved (reactions : list (string * list value))
  (w : world) (s : driver) :
  exists t,
    run_reactions (Resolved tt) reactions w s = (Ok tt, s, t) /\
    requests t = reaction_requests reactions /\
    error_events t = [].
Proof.
  induction reactions as [| r rest IH]; simpl.
  - exists []. repeat split.
  - destruct IH as (t & Hrun & Hrequests & Herrors).
    unfold bind, floating, request.
    destruct (session_request w (fst r) (snd r)) as [v | e];
      rewrite Hrun; eexists; (split; [reflexivity |]); simpl;
      rewrite Hrequests, Herrors; split; reflexivity.
Qed.

Lemma run_reactions_rejected (e : thrown)
  (reactions : list (string * list value)) (w : world) (s : driver) :
  run_reactions (Rejected e) reactions w s =
  (Ok tt, s, map (fun _ => UnhandledRejection e) reactions).
Proof.
  induction reactions as [| r rest IH]; simpl; [reflexivity |].
  unfold bind, emit. rewrite IH. reflexivity.
Qed.

Lemma requests_of_rejections (e : thrown)
  (reactions : list (string * list value)) :
  requests (map (fun _ => UnhandledRejection e) reactions) = [].
Proof. induction reactions; simpl; auto. Qed.

(** X6. When the chain behind [start] settles, the callbacks chained on
    [_initPromise] meanwhile (the resize requests) are served: if the
    chain fulfils, their requests are sent after the chain's own, in the
    order they were chained; if it rejects, none is sent.  The field then
    holds the settled promise. *)
Theorem chained_requests_follow_the_start_chain (w : world) (s : driver)
  (reactions : list (string * list value)) :
  _initPromise s = Some (Pending reactions) ->
  let chain := start_chain w s in
  let settle := start_settle w s in
  match outcome chain with
  | Ok _ =>
      outcome settle = Ok Fulfilled /\
      requests (trace settle) =
        requests (trace chain) ++ reaction_requests reactions /\
      _initPromise (final settle) = Some Fulfilled
  | Exn e =>
      outcome settle = Ok (RejectedWith e) /\
      requests (trace settle) = requests (trace chain) /\
      _initPromise (final settle) = Some (RejectedWith e)
  | OutOfModel => outcome settle = OutOfModel
  end.
Proof.
  intros Hpending. cbv zeta.
  destruct (start_chain_keeps_initPromise w s) as [_ Hkept].
  unfold same_initPromise in Hkept. rewrite Hpending in Hkept.
  unfold start_settle, bind, attempt, get, modify, ret.
  destruct (start_chain w s) as [[[[] | e |] s1] t1];
    unfold final, trace, outcome in *; simpl in *; try reflexivity;
    rewrite Hkept.
  - destruct (run_reactions_resolved reactions w
                (set_initPromise (Some Fulfilled) s1))
      as (t & -> & Hrequests & _).
    simpl. unfold requests in *.
    rewrite filter_app, app_nil_r, Hrequests. repeat split.
  - rewrite run_reactions_rejected. simpl. unfold requests.
    rewrite filter_app, app_nil_r.
    fold (requests (map (fun _ => UnhandledRejection e) reactions)).
    rewrite requests_of_rejections, app_nil_r. repeat split.
Qed.

Lemma chained_requests_witness :
  requests
    (trace (start_settle Scenario.world
              (set_initPromise
                 (Some (Pending [try_resize (Fin 120) (Fin 40)]))
                 Worlds.measured)))
  = [Request "nvim_get_api_info" [];
     Request "nvim_ui_attach"
       [VNum (Fin 100); VNum (Fin 37); full_capabilities];
     Request "nvim_command" [VStr "set title"];
     Request "nvim_call_function" [VStr "OniConnect"; VArr []];
     Request "nvim_ui_try_resize" [VNum (Fin 120); VNum (Fin 40)]].
Proof.
  apply (chained_requests_follow_the_start_chain Scenario.world
           (set_initPromise
              (Some (Pending [try_resize (Fin 120) (Fin 40)]))
              Worlds.measured)
           [try_resize (Fin 120) (Fin 40)]).
  reflexivity.
Defined.

Lemma reports_version_sample (major minor patch : Z) :
  reports_version (Sample.world_of major minor patch)
    (Fin major) (Fin minor) (Fin patch).
Proof.
  exists (Sample.api_info major minor patch).
  eexists. eexists. repeat split.
Qed.

Ltac unfold_start :=
  unfold start, start_assign, start_settle, attempt, start_chain, then2,
    _attachUI, getApiVersion, command, callFunction, _onError, dispatch,
    bind, request, lift, emit, modify, get, ask, ret.

(** X7. When the engine is spawned, reports a supported version and
    answers the three requests, [start] logs, queries the version, sends
    the attach request with (columns, rows, options) for the size computed
    from the pixel and font dimensions, then "set title" and OniConnect, in
    this order; its promise fulfils, the geometry is recorded and nothing
    reaches the Error feed. *)
Theorem start_attaches_and_connects (w : world) (s : driver)
  (major minor patch : number) (options r1 r2 r3 : value) :
  startNeovim w = Resolved tt ->
  reports_version w major minor patch ->
  _getStartupOptionsForVersion major minor patch = Ok options ->
  session_request w "nvim_ui_attach"
    [VNum (snd (_getSize s)); VNum (fst (_getSize s)); options]
  = Resolved r1 ->
  session_request w "nvim_command" [VStr "set title"] = Resolved r2 ->
  session_request w "nvim_call_function" [VStr "OniConnect"; VArr []]
  = Resolved r3 ->
  start w s =
  (Ok Fulfilled, set_initPromise (Some Fulfilled) (at_attach s),
   attach_trace s major minor patch options ++ set_title_trace ++
   [connect_request]).
Proof.
  intros Hspawn (info & entry & version & Hinfo & Hentry & Hversion &
                 Hmajor & Hminor & Hpatch) Hoptions Hattach Htitle Hconnect.
  unfold_start. rewrite Hspawn. simpl.
  rewrite Hinfo, Hentry, Hversion, Hmajor, Hminor, Hpatch. simpl.
  rewrite Hoptions. simpl.
  unfold _getSize in Hattach. simpl in Hattach.
  rewrite Hattach. simpl. rewrite Htitle. simpl. rewrite Hconnect.
  reflexivity.
Qed.

Lemma start_attaches_and_connects_witness :
  requests
    (trace (start Scenario.world Worlds.measured))
  = [Request "nvim_get_api_info" [];
     Request "nvim_ui_attach"
       [VNum (Fin 100); VNum (Fin 37); full_capabilities];
     Request "nvim_command" [VStr "set title"];
     connect_request].
Proof.
  rewrite (start_attaches_and_connects Scenario.world Worlds.measured
             (Fin 0) (Fin 2) (Fin 1) full_capabilities VNull VNull VNull
             eq_refl (reports_version_sample 0 2 1) eq_refl eq_refl eq_refl
             eq_refl).
  reflexivity.
Defined.

(** X8. The failures that reject the promise of [start] never reach the
    Error feed.  If the engine cannot be spawned, [start] does nothing but
    reject: no log, no request, no geometry.  If "set title" is rejected
    after a successful attach, the promise rejects with that failure and
    OniConnect is never called; if OniConnect is rejected, the promise
    rejects with that failure. *)
Theorem start_rejects_without_an_error_event (w : world) (s : driver)
  (major minor patch : number) (options r1 r2 : value) (e : thrown) :
  (startNeovim w = Rejected e ->
   start w s =
   (Ok (RejectedWith e), set_initPromise (Some (RejectedWith e)) s, [])) /\
  (startNeovim w = Resolved tt ->
   reports_version w major minor patch ->
   _getStartupOptionsForVersion major minor patch = Ok options ->
   session_request w "nvim_ui_attach"
     [VNum (snd (_getSize s)); VNum (fst (_getSize s)); options]
   = Resolved r1 ->
   (session_request w "nvim_command" [VStr "set title"] = Rejected e ->
    start w s =
    (Ok (RejectedWith e), set_initPromise (Some (RejectedWith e)) (at_attach s),
     attach_trace s major minor patch options ++ set_title_trace)) /\
   (session_request w "nvim_command" [VStr "set title"] = Resolved r2 ->
    session_request w "nvim_call_function" [VStr "OniConnect"; VArr []]
    = Rejected e ->
    start w s =
    (Ok (RejectedWith e), set_initPromise (Some (RejectedWith e)) (at_attach s),
     attach_trace s major minor patch options ++ set_title_trace ++
     [connect_request]))).
Proof.
  split.
  - intros Hspawn. unfold_start. rewrite Hspawn. reflexivity.
  - intros Hspawn (info & entry & version & Hinfo & Hentry & Hversion &
                   Hmajor & Hminor & Hpatch) Hoptions Hattach.
    split.
    + intros Htitle. unfold_start. rewrite Hspawn. simpl.
      rewrite Hinfo, Hentry, Hversion, Hmajor, Hminor, Hpatch. simpl.
      rewrite Hoptions. simpl.
      unfold _getSize in Hattach. simpl in Hattach.
      rewrite Hattach. simpl. rewrite Htitle. reflexivity.
    + intros Htitle Hconnect. unfold_start. rewrite Hspawn. simpl.
      rewrite Hinfo, Hentry, Hversion, Hmajor, Hminor, Hpatch. simpl.
      rewrite Hoptions. simpl.
      unfold _getSize in Hattach. simpl in Hattach.
      rewrite Hattach. simpl. rewrite Htitle. simpl. rewrite Hconnect.
      reflexivity.
Qed.

Lemma start_rejects_witness :
  start Worlds.no_engine Sample.fresh
  = (Ok (RejectedWith (ErrorObj "spawn nvim ENOENT")),
     set_initPromise (Some (RejectedWith (ErrorObj "spawn nvim ENOENT")))
       Sample.fresh, [])
  /\ outcome (start (Worlds.failing "nvim_command") Worlds.measured)
     = Ok (RejectedWith (ErrorObj "refused"))
  /\ error_events
       (trace (start (Worlds.failing "nvim_command") Worlds.measured))
     = [].
Proof.
  split; [| split].
  - apply (start_rejects_without_an_error_event Worlds.no_engine
             Sample.fresh NaN NaN NaN VNull VNull VNull). reflexivity.
  - rewrite (proj1 (proj2 (start_rejects_without_an_error_event
               (Worlds.failing "nvim_command") Worlds.measured
               (Fin 0) (Fin 2) (Fin 1) full_capabilities VNull VNull
               (ErrorObj "refused"))
             eq_refl (reports_version_sample 0 2 1) eq_refl eq_refl) eq_refl).
    reflexivity.
  - rewrite (proj1 (proj2 (start_rejects_without_an_error_event
               (Worlds.failing "nvim_command") Worlds.measured
               (Fin 0) (Fin 2) (Fin 1) full_capabilities VNull VNull
               (ErrorObj "refused"))
             eq_refl (reports_version_sample 0 2 1) eq_refl eq_refl) eq_refl).
    reflexivity.
Defined.

Lemma attachUI_is_quiet (columns rows : number) :
  respects no_error_event eq (_attachUI columns rows).
Proof.
  assert (Hrefl : forall s : driver, s = s) by reflexivity.
  assert (Htrans : forall a b c : driver, a = b -> b = c -> a = c)
    by (intros; congruence).
  respects_auto ltac:(solve [reflexivity]).
Qed.

Lemma start_at_attach (w : world) (s : driver) :
  startNeovim w = Resolved tt ->
  start w s =
  match _attachUI (snd (_getSize s)) (fst (_getSize s)) w (at_attach s) with
  | (Ok _, s1, t1) =>
      match session_request w "nvim_command" [VStr "set title"] with
      | Resolved _ =>
          match session_request w "nvim_call_function"
                  [VStr "OniConnect"; VArr []] with
          | Resolved _ =>
              (Ok Fulfilled, set_initPromise (Some Fulfilled) s1,
               started :: t1 ++ set_title_trace ++ [connect_request])
          | Rejected e =>
              (Ok (RejectedWith e), set_initPromise (Some (RejectedWith e)) s1,
               started :: t1 ++ set_title_trace ++ [connect_request])
          end
      | Rejected e =>
          (Ok (RejectedWith e), set_initPromise (Some (RejectedWith e)) s1,
           started :: t1 ++ set_title_trace)
      end
  | (Exn e, s1, t1) =>
      (Ok Fulfilled, set_initPromise (Some Fulfilled) s1,
       started :: t1 ++ [LogError e; Dispatch (_onErrorEvent e)])
  | (OutOfModel, s1, t1) => (OutOfModel, s1, started :: t1)
  end.
Proof.
  intros Hspawn.
  destruct (attachUI_is_quiet (snd (_getSize s)) (fst (_getSize s)) w
              (at_attach s)) as [_ Hstate].
  unfold start, start_assign, start_settle, attempt, start_chain, then2,
    command, callFunction, _onError, dispatch, bind, request, emit, modify,
    get, ask, ret.
  rewrite Hspawn.
  change (set_geometry
            (fst (_getSize (set_initPromise (Some (Pending [])) s)))
            (snd (_getSize (set_initPromise (Some (Pending [])) s)))
            (set_initPromise (Some (Pending [])) s))
    with (at_attach s).
  change (_getSize (set_initPromise (Some (Pending [])) s))
    with (_getSize s).
  destruct (_attachUI (snd (_getSize s)) (fst (_getSize s)) w (at_attach s))
    as [[[[] | e |] s1] t1]; unfold final in Hstate; simpl in Hstate;
    subst s1; unfold set_title_trace, connect_request, started.
  - destruct (session_request w "nvim_command" [VStr "set title"]);
      [destruct (session_request w "nvim_call_function"
                   [VStr "OniConnect"; VArr []]) |];
      simpl; rewrite <- ?app_assoc; simpl; rewrite ?app_nil_r; reflexivity.
  - simpl. rewrite <- ?app_assoc. simpl. rewrite ?app_nil_r. reflexivity.
  - reflexivity.
Qed.

(** X9. Any failure of the attach step, be it a rejected version query, a
    reply without a version, a refused version or a rejected attach
    request, is logged and dispatched exactly once on the Error feed;
    "set title" and OniConnect are then not sent and the promise of
    [start] fulfils. *)
Theorem attach_failure_reaches_the_error_feed (w : world) (s : driver)
  (e : thrown) :
  startNeovim w = Resolved tt ->
  outcome (_attachUI (snd (_getSize s)) (fst (_getSize s)) w (at_attach s))
  = Exn e ->
  outcome (start w s) = Ok Fulfilled /\
  _initPromise (final (start w s)) = Some Fulfilled /\
  error_events (trace (start w s)) = [Dispatch (_onErrorEvent e)] /\
  requests (trace (start w s)) =
  requests
    (trace (_attachUI (snd (_getSize s)) (fst (_getSize s)) w (at_attach s))).
Proof.
  intros Hspawn Hfails. rewrite (start_at_attach w s Hspawn).
  destruct (attachUI_is_quiet (snd (_getSize s)) (fst (_getSize s)) w
              (at_attach s)) as [Hquiet _].
  destruct (_attachUI (snd (_getSize s)) (fst (_getSize s)) w (at_attach s))
    as [[r s1] t1].
  unfold outcome, trace in *. simpl in *. subst r.
  repeat split.
  - unfold error_events. simpl. rewrite filter_app. simpl.
    rewrite (filter_none _ _ Hquiet). reflexivity.
  - unfold requests. simpl. rewrite filter_app. simpl.
    rewrite app_nil_r. reflexivity.
Qed.

Lemma attach_failure_witness :
  outcome (start (Worlds.failing "nvim_ui_attach") Worlds.measured)
  = Ok Fulfilled
  /\ error_events
       (trace (start (Worlds.failing "nvim_ui_attach") Worlds.measured))
     = [Dispatch (_onErrorEvent (ErrorObj "refused"))].
Proof.
  destruct (attach_failure_reaches_the_error_feed
              (Worlds.failing "nvim_ui_attach") Worlds.measured
              (ErrorObj "refused") eq_refl eq_refl)
    as (Hfulfils & _ & Herror & _).
  split; assumption.
Defined.

(** * Geometry *)

Lemma num_eq_true (a b : number) : num_eq a b = true -> a = b.
Proof.
  destruct a, b; simpl; try discriminate; try reflexivity.
  intros H. apply Z.eqb_eq in H. congruence.
Qed.

Lemma num_eq_same (a : number) : is_NaN a = false -> num_eq a a = true.
Proof. destruct a; simpl; try discriminate; auto using Z.eqb_refl. Qed.

Lemma same_as_true (n : number) (field : option number) :
  same_as n field = true -> field = Some n.
Proof.
  destruct field as [m |]; simpl; [| discriminate].
  intros H. apply num_eq_true in H. congruence.
Qed.

(** [resize], step by step. *)
Lemma resize_run (w : world) (s : driver) (width height : float) :
  let s0 := set_lastPixels width height s in
  let size := size_to_apply s0 in
  let applied := set_geometry (fst size) (snd size) s0 in
  resize width height w s =
  if same_geometry size s then (Ok tt, s0, override_warning s)
  else
    match _initPromise s with
    | None => (Ok tt, applied, override_warning s)
    | Some (Pending reactions) =>
        (Ok tt,
         set_initPromise
           (Some (Pending (reactions ++ [try_resize (snd size) (fst size)])))
           applied,
         override_warning s)
    | Some Fulfilled =>
        (Ok tt, applied, override_warning s ++ resize_request_trace w size)
    | Some (RejectedWith e) =>
        (Ok tt, applied, override_warning s ++ [UnhandledRejection e])
    end.
Proof.
  cbv zeta.
  unfold resize, _resizeInternal, size_to_apply, same_geometry,
    override_warning, resize_request_trace, bind, modify, get, emit, ret.
  cbn [_config set_lastPixels].
  change (_rows (set_lastPixels width height s)) with (_rows s).
  change (_cols (set_lastPixels width height s)) with (_cols s).
  change (_initPromise (set_lastPixels width height s))
    with (_initPromise s).
  destruct (debug_fixedSize (_config s)) as [fixedSize |]; cbn [fst snd];
    match goal with
    | |- context [same_as ?r (_rows s) && same_as ?c (_cols s)] =>
        destruct (same_as r (_rows s) && same_as c (_cols s))
    end; try reflexivity;
    destruct (_initPromise s) as [[reactions | | e] |]; try reflexivity;
    unfold floating, request, try_resize; cbn [fst snd];
    match goal with
    | |- context [session_request w ?m ?a] =>
        destruct (session_request w m a)
    end; reflexivity.
Qed.

(** X10. After every [resize] the recorded geometry is the size to apply
    (the override, else the floored pixel size), whatever was recorded
    before and whatever the session answers.  When that size holds no NaN,
    a second [resize] to the same pixel dimensions sends nothing and
    changes nothing. *)
Theorem resize_records_the_size_and_is_idempotent (w : world) (s : driver)
  (width height : float) :
  let size := size_to_apply (set_lastPixels width height s) in
  let once := resize width height w s in
  let twice := resize width height w (final once) in
  (_rows (final once) = Some (fst size) /\
   _cols (final once) = Some (snd size) /\
   _lastWidthInPixels (final once) = width /\
   _lastHeightInPixels (final once) = height) /\
  (finite_size size = true ->
   requests (trace twice) = [] /\ final twice = final once).
Proof.
  cbv zeta.
  assert (Hfields :
            _rows (final (resize width height w s)) =
              Some (fst (size_to_apply (set_lastPixels width height s))) /\
            _cols (final (resize width height w s)) =
              Some (snd (size_to_apply (set_lastPixels width height s))) /\
            _lastWidthInPixels (final (resize width height w s)) = width /\
            _lastHeightInPixels (final (resize width height w s)) = height /\
            size_to_apply
              (set_lastPixels width height (final (resize width height w s)))
            = size_to_apply (set_lastPixels width height s) /\
            set_lastPixels width height (final (resize width height w s))
            = final (resize width height w s)).
  { rewrite resize_run.
    destruct (same_geometry _ s) eqn:Hsame.
    - unfold same_geometry in Hsame. apply andb_true_iff in Hsame.
      destruct Hsame as [Hrows Hcols].
      apply same_as_true in Hrows, Hcols. repeat split; assumption.
    - destruct (_initPromise s) as [[reactions | | e] |]; repeat split. }
  destruct Hfields as (Hrows & Hcols & Hwidth & Hheight & Hsize & Hpixels).
  split; [repeat split; assumption |].
  intros Hfinite. unfold finite_size in Hfinite.
  apply andb_true_iff in Hfinite. destruct Hfinite as [Hr Hc].
  apply negb_true_iff in Hr, Hc.
  rewrite (resize_run w (final (resize width height w s))).
  rewrite Hsize, Hpixels. unfold same_geometry.
  rewrite Hrows, Hcols. simpl same_as.
  rewrite (num_eq_same _ Hr), (num_eq_same _ Hc). simpl.
  split; [| reflexivity].
  unfold override_warning. destruct (debug_fixedSize _); reflexivity.
Qed.

Lemma resize_idempotent_witness :
  requests
    (trace (resize 1600%float 600%float Scenario.world
              (final (resize 1600%float 600%float Scenario.world
                        (Sample.attached Sample.plain 37 100)))))
  = [].
Proof.
  apply (resize_records_the_size_and_is_idempotent Scenario.world
           (Sample.attached Sample.plain 37 100) 1600%float 600%float).
  reflexivity.
Defined.

(** X12. Until [setFont] has measured the font, the computed size is NaN,
    which equals nothing: a started instance without override then sends a
    resize request with NaN on every [resize], also on a repeated one with
    the same pixel dimensions. *)
Theorem resize_without_font_metrics_always_sends (w : world) (s : driver)
  (width height : float) :
  debug_fixedSize (_config s) = None ->
  _fontHeightInPixels s = None ->
  _initPromise s = Some Fulfilled ->
  let once := resize width height w s in
  let twice := resize width height w (final once) in
  let sent :=
    Request "nvim_ui_try_resize"
      [VNum (floor_div width (_fontWidthInPixels s)); VNum NaN] in
  requests (trace once) = [sent] /\ requests (trace twice) = [sent].
Proof.
  intros Hnone Hfont Hstarted. cbv zeta.
  assert (Hone : forall s1,
            debug_fixedSize (_config s1) = None ->
            _fontHeightInPixels s1 = None ->
            _initPromise s1 = Some Fulfilled ->
            requests (trace (resize width height w s1)) =
              [Request "nvim_ui_try_resize"
                 [VNum (floor_div width (_fontWidthInPixels s1)); VNum NaN]]
            /\ final (resize width height w s1) =
               set_geometry NaN (floor_div width (_fontWidthInPixels s1))
                 (set_lastPixels width height s1)).
  { intros s1 H1 H2 H3. rewrite resize_run.
    unfold size_to_apply, same_geometry, _getSize, override_warning,
      resize_request_trace.
    cbn [_config set_lastPixels _fontHeightInPixels _fontWidthInPixels
           _lastHeightInPixels _lastWidthInPixels].
    rewrite H1, H2, H3. cbn [floor_div fst snd same_as].
    destruct (_rows s1); cbn [same_as num_eq andb app];
      destruct (session_request w "nvim_ui_try_resize" _);
      split; reflexivity. }
  destruct (Hone s Hnone Hfont Hstarted) as [Hfirst Hstate].
  split; [exact Hfirst |].
  rewrite Hstate.
  apply (Hone (set_geometry NaN (floor_div width (_fontWidthInPixels s))
                 (set_lastPixels width height s))); assumption.
Qed.

Lemma resize_without_font_metrics_witness :
  requests
    (trace (resize 800%float 600%float Scenario.world
              (set_initPromise (Some Fulfilled) Sample.fresh)))
  = [Request "nvim_ui_try_resize" [VNum NaN; VNum NaN]].
Proof.
  apply (resize_without_font_metrics_always_sends Scenario.world
           (set_initPromise (Some Fulfilled) Sample.fresh)
           800%float 600%float); reflexivity.
Defined.

(** X13. A resize request that the session rejects is not reported: no
    Error event is dispatched and [resize] returns normally with the new
    geometry recorded. *)
Theorem rejected_resize_is_swallowed (w : world) (s : driver)
  (width height : float) (e : thrown) :
  let size := size_to_apply (set_lastPixels width height s) in
  _initPromise s = Some Fulfilled ->
  same_geometry size s = false ->
  session_request w "nvim_ui_try_resize" [VNum (snd size); VNum (fst size)]
  = Rejected e ->
  resize width height w s =
  (Ok tt, set_geometry (fst size) (snd size) (set_lastPixels width height s),
   override_warning s ++
   [Request "nvim_ui_try_resize" [VNum (snd size); VNum (fst size)];
    UnhandledRejection e]) /\
  error_events (trace (resize width height w s)) = [].
Proof.
  cbv zeta. intros Hstarted Hdiffer Hreply.
  rewrite resize_run, Hdiffer, Hstarted.
  unfold resize_request_trace. rewrite Hreply.
  split; [reflexivity |].
  unfold override_warning. destruct (debug_fixedSize _); reflexivity.
Qed.

Lemma rejected_resize_witness :
  error_events
    (trace (resize 1600%float 600%float Worlds.down
              (Sample.attached Sample.plain 37 100)))
  = [].
Proof.
  apply (rejected_resize_is_swallowed Worlds.down
           (Sample.attached Sample.plain 37 100) 1600%float 600%float
           (ErrorObj "channel closed")); reflexivity.
Defined.

(** * The plugin router *)

Lemma plugin_payload_run (pluginMethod : string) (subArgs others : list value)
  (w : world) (s : driver) :
  on_notification (VStr "oni_plugin_notify")
    (plugin_payload pluginMethod subArgs others) w s =
  plugin_switch (VStr pluginMethod) (VArr subArgs) w s.
Proof.
  change (on_notification (VStr "oni_plugin_notify")
            (plugin_payload pluginMethod subArgs others) w s)
    with (bind (lift (JS.index (plugin_payload pluginMethod subArgs others) 0))
            (fun pluginArgs =>
               bind (lift (JS.shift pluginArgs))
                 (fun shifted => plugin_switch (fst shifted) (snd shifted)))
            w s).
  rewrite (bind_lift_ok _ (VArr (VStr pluginMethod :: subArgs)) _ _ _ eq_refl).
  rewrite (bind_lift_ok _ (VStr pluginMethod, VArr subArgs) _ _ _ eq_refl).
  reflexivity.
Qed.

(** X14. The router reads the arguments of a sub-method by position after
    the sub-method itself and checks nothing: [oni_yank] and [oni_command]
    dispatch the first argument, [incremental_buffer_update] dispatches
    (context, line number, line contents) from positions 0, 2 and 1.  A
    missing argument is dispatched as [undefined]; none of the three
    throws, sends a request or touches the state. *)
Theorem plugin_arguments_are_read_by_position (w : world) (s : driver)
  (subArgs others : list value) :
  let arg i := nth i subArgs VUndefined in
  on_notification (VStr "oni_plugin_notify")
    (plugin_payload "oni_yank" subArgs others) w s
  = (Ok tt, s, [Dispatch (_onYank (arg 0%nat))])
  /\ on_notification (VStr "oni_plugin_notify")
       (plugin_payload "oni_command" subArgs others) w s
     = (Ok tt, s, [Dispatch (_onOniCommand (arg 0%nat))])
  /\ on_notification (VStr "oni_plugin_notify")
       (plugin_payload "incremental_buffer_update" subArgs others) w s
     = (Ok tt, s,
        [Dispatch (_onIncrementalBufferUpdateEvent (arg 0%nat) (arg 2%nat)
                     (arg 1%nat))]).
Proof.
  cbv zeta. rewrite !plugin_payload_run. repeat split.
Qed.

(** X15. An [event] notification is always forwarded: whatever the event
    name, the context and the session's answers, the handler returns
    normally and passes (name, context) once to the autocommand registry
    and once to the generic "event" channel, in this order. *)
Theorem events_are_always_forwarded (w : world) (s : driver)
  (subArgs others : list value) :
  let name := nth 0 subArgs VUndefined in
  let context := nth 1 subArgs VUndefined in
  let run :=
    on_notification (VStr "oni_plugin_notify")
      (plugin_payload "event" subArgs others) w s in
  outcome run = Ok tt /\
  forwards (trace run) =
  [NotifyAutocommand name context; Emit "event" [name; context]].
Proof.
  cbv zeta. rewrite plugin_payload_run.
  change (plugin_switch (VStr "event") (VArr subArgs) w s)
    with (plugin_event (VArr subArgs) w s).
  unfold plugin_event.
  rewrite (bind_lift_ok _ (nth 0 subArgs VUndefined) _ _ _ eq_refl).
  rewrite (bind_lift_ok _ (nth 1 subArgs VUndefined) _ _ _ eq_refl).
  unfold bind, floating, _updateProcessDirectory,
    getCurrentWorkingDirectory, eval, request, dispatch, emit, modify, ask,
    throw, ret, bind.
  destruct (JS.is_str (nth 0 subArgs VUndefined) "DirChanged").
  - destruct (session_request w "nvim_eval" [VStr "getcwd()"]) as [[] | e];
      split; reflexivity.
  - destruct (JS.is_str (nth 0 subArgs VUndefined) "VimLeave");
      split; reflexivity.
Qed.

(** X16. A [DirChanged] event asks the engine for its working directory.
    A string answer is normalised and dispatched on DirectoryChanged; a
    rejected request or an answer that is no string dispatches neither
    DirectoryChanged nor an Error. *)
Theorem DirChanged_refreshes_the_directory (w : world) (s : driver)
  (context : value) (more others : list value) :
  let run :=
    on_notification (VStr "oni_plugin_notify")
      (plugin_payload "event" (VStr "DirChanged" :: context :: more) others)
      w s in
  requests (trace run) = [getcwd_request] /\
  error_events (trace run) = [] /\
  final run = s /\
  match session_request w "nvim_eval" [VStr "getcwd()"] with
  | Resolved (VStr directory) =>
      directory_events (trace run) =
      [Dispatch (_onDirectoryChanged (VStr (path_normalize w directory)))]
  | _ => directory_events (trace run) = []
  end.
Proof.
  cbv zeta. rewrite plugin_payload_run.
  change (plugin_switch (VStr "event")
            (VArr (VStr "DirChanged" :: context :: more)) w s)
    with (plugin_event (VArr (VStr "DirChanged" :: context :: more)) w s).
  unfold plugin_event.
  rewrite (bind_lift_ok _ (VStr "DirChanged") _ _ _ eq_refl).
  rewrite (bind_lift_ok _ context _ _ _ eq_refl).
  unfold bind, floating, _updateProcessDirectory,
    getCurrentWorkingDirectory, eval, request, dispatch, emit, modify, ask,
    throw, ret, bind.
  change (JS.is_str (VStr "DirChanged") "DirChanged") with true.
  cbv beta iota.
  destruct (session_request w "nvim_eval" [VStr "getcwd()"]) as [[] | e];
    repeat split; reflexivity.
Qed.

(** * Decoding redraw commands *)

Lemma completion_items_run (entries : list (list value)) (w : world)
  (s : driver) :
  mapM completion_item (map VArr entries) w s =
  (Ok (map completion_of entries), s, []).
Proof.
  induction entries as [| fields rest IH]; simpl; [reflexivity |].
  unfold bind at 1. unfold completion_item at 1, bind at 1, lift at 1.
  simpl. unfold bind at 1. rewrite IH. reflexivity.
Qed.

(** X17. [popupmenu_show] decodes its first tuple by position: the
    entries become items with word, kind, menu and info taken from fields
    0 to 3 (a missing field is [undefined], further fields are ignored),
    in order, together with the selected index, row and column; tuples
    after the first are not read.  When the entries are not an array the
    command throws and dispatches nothing. *)
Theorem popupmenu_show_decodes_by_position (w : world) (s : driver)
  (entries : list (list value)) (selected row col items : value)
  (more rest : list value) :
  redraw_command
    (VArr (VStr "popupmenu_show"
             :: VArr (VArr (map VArr entries) :: selected :: row :: col
                        :: more)
             :: rest)) w s
  = (Ok tt, s,
     [Dispatch (_onShowPopupMenu (popupmenu_info entries selected row col))])
  /\ ((forall l, items <> VArr l) ->
      redraw_command
        (VArr (VStr "popupmenu_show"
                 :: VArr (items :: selected :: row :: col :: more) :: rest))
        w s
      = (Exn TypeError, s, [])).
Proof.
  rewrite !redraw_command_array. split.
  - change (redraw_switch (VStr "popupmenu_show") ?a w s)
      with (popupmenu_show a w s).
    unfold popupmenu_show, bind, lift, array_map, dispatch, emit. simpl.
    rewrite completion_items_run. reflexivity.
  - intros Hitems.
    change (redraw_switch (VStr "popupmenu_show") ?a w s)
      with (popupmenu_show a w s).
    unfold popupmenu_show, bind, lift, array_map, dispatch, emit. simpl.
    destruct items; try reflexivity. destruct (Hitems items eq_refl).
Qed.

Lemma popupmenu_show_witness :
  redraw_command
    (VArr [VStr "popupmenu_show";
           VArr [VNull; Sample.num 0; Sample.num 1; Sample.num 2]])
    Scenario.world Sample.fresh
  = (Exn TypeError, Sample.fresh, []).
Proof.
  apply (popupmenu_show_decodes_by_position Scenario.world Sample.fresh
           [] (Sample.num 0) (Sample.num 1) (Sample.num 2) VNull [] []).
  intros l H. discriminate H.
Defined.

(** X18. Six commands read none of their arguments: whatever follows the
    name, they run as if nothing followed and never throw.  Each of the
    twelve commands that read a tuple throws a TypeError when no tuple
    follows the name, and then emits nothing and changes nothing. *)
Theorem commands_and_their_missing_arguments (w : world) (s : driver)
  (name : string) (tuples : list value) :
  (In name commands_without_arguments ->
   redraw_command (VArr (VStr name :: tuples)) w s
   = redraw_command (VArr [VStr name]) w s /\
   outcome (redraw_command (VArr (VStr name :: tuples)) w s) = Ok tt) /\
  (In name commands_with_a_tuple ->
   redraw_command (VArr [VStr name]) w s = (Exn TypeError, s, [])).
Proof.
  rewrite !redraw_command_array. split.
  - unfold commands_without_arguments. simpl.
    intros [<- | [<- | [<- | [<- | [<- | [<- | []]]]]]];
      try (split; reflexivity).
    unfold redraw_switch, bell, bind, get, emit, ret. simpl.
    destruct (JS.truthy (oni_audio_bellUrl (_config s))); split; reflexivity.
  - unfold commands_with_a_tuple. simpl.
    intros [<- | [<- | [<- | [<- | [<- | [<- | [<- | [<- | [<- | [<- |
            [<- | [<- | []]]]]]]]]]]]]; reflexivity.
Qed.

Lemma commands_and_their_missing_arguments_witness :
  redraw_command (VArr [VStr "clear"; VNull; Sample.num 3])
    Scenario.world Sample.fresh
  = redraw_command (VArr [VStr "clear"]) Scenario.world Sample.fresh
  /\ redraw_command (VArr [VStr "mode_change"]) Scenario.world Sample.fresh
     = (Exn TypeError, Sample.fresh, []).
Proof.
  split.
  - apply (commands_and_their_missing_arguments Scenario.world Sample.fresh
             "clear" [VNull; Sample.num 3]).
    simpl. tauto.
  - apply (commands_and_their_missing_arguments Scenario.world Sample.fresh
             "mode_change" []).
    simpl. tauto.
Defined.

Lemma index_never_leaves_the_model (v : value) (i : Z) :
  JS.index v i = Exn TypeError \/ exists y, JS.index v i = Ok y.
Proof.
  destruct v; simpl; eauto.
  - destruct (i <? 0); eauto.
    destruct (String.get (Z.to_nat i) s); eauto.
  - destruct (i <? 0); eauto.
Qed.

Lemma first_fields_throw (tuples : list value) (t : value) (w : world)
  (s : driver) :
  In t tuples -> t = VNull \/ t = VUndefined ->
  mapM (fun v => lift (JS.index v 0)) tuples w s = (Exn TypeError, s, []).
Proof.
  intros Hin Ht. induction tuples as [| x rest IH]; [destruct Hin |].
  simpl. unfold bind at 1, lift at 1.
  destruct Hin as [-> | Hin].
  - destruct Ht as [-> | ->]; reflexivity.
  - destruct (index_never_leaves_the_model x 0) as [-> | [y ->]];
      [reflexivity |].
    unfold bind at 1. rewrite (IH Hin). reflexivity.
Qed.

(** X19. [put] is all or nothing: with no tuple it emits an empty put;
    when any of its tuples is [null] or [undefined] it throws before
    emitting, so not even the characters of the tuples before that one
    are put. *)
Theorem put_is_all_or_nothing (w : world) (s : driver) (tuples : list value)
  (t : value) :
  redraw_command (VArr [VStr "put"]) w s
  = (Ok tt, s, [EmitAction (Actions.put [])]) /\
  (In t tuples -> t = VNull \/ t = VUndefined ->
   redraw_command (VArr (VStr "put" :: tuples)) w s = (Exn TypeError, s, [])).
Proof.
  rewrite !redraw_command_array. split; [reflexivity |].
  intros Hin Ht.
  change (redraw_switch (VStr "put") (VArr tuples) w s)
    with (put (VArr tuples) w s).
  unfold put, array_map, bind. rewrite (first_fields_throw _ _ _ _ Hin Ht).
  reflexivity.
Qed.

Lemma put_is_all_or_nothing_witness :
  redraw_command (VArr [VStr "put"; VArr [VStr "a"]; VNull])
    Scenario.world Sample.fresh
  = (Exn TypeError, Sample.fresh, []).
Proof.
  apply (put_is_all_or_nothing Scenario.world Sample.fresh
           [VArr [VStr "a"]; VNull] VNull).
  - simpl. tauto.
  - left. reflexivity.
Defined.

(** * Buffer ids and fonts *)

Lemma buffer_ids_run (buffers : list (list (string * value))) (w : world)
  (s : driver) :
  mapM (fun b => lift (JS.prop b "id")) (map VObj buffers) w s =
  (Ok (map (JS.assoc "id") buffers), s, []).
Proof.
  induction buffers as [| fields rest IH]; simpl; [reflexivity |].
  unfold bind at 1, lift at 1. unfold bind at 1. rewrite IH. reflexivity.
Qed.

(** X20. [getBufferIds] sends one [nvim_list_bufs] request.  For a reply
    that lists buffer references it returns their ids, one per buffer and
    in the reply's order; a rejected request rejects it with the same
    failure; a reply that is no array rejects it with a TypeError. *)
Theorem getBufferIds_returns_the_ids_in_order (w : world) (s : driver) :
  (forall buffers,
     session_request w "nvim_list_bufs" [] = Resolved (VArr (map VObj buffers))
     -> NeovimInstance.getBufferIds w s =
        (Ok (map (JS.assoc "id") buffers), s, [list_bufs_request])) /\
  (forall e,
     session_request w "nvim_list_bufs" [] = Rejected e ->
     NeovimInstance.getBufferIds w s = (Exn e, s, [list_bufs_request])) /\
  (forall reply,
     session_request w "nvim_list_bufs" [] = Resolved reply ->
     (forall l, reply <> VArr l) ->
     NeovimInstance.getBufferIds w s =
     (Exn TypeError, s, [list_bufs_request])).
Proof.
  unfold NeovimInstance.getBufferIds, bind, request, array_map.
  split; [| split].
  - intros buffers ->. rewrite buffer_ids_run. reflexivity.
  - intros e ->. reflexivity.
  - intros reply -> Hshape.
    destruct reply; try reflexivity. destruct (Hshape items eq_refl).
Qed.

Lemma getBufferIds_witness :
  NeovimInstance.getBufferIds Scenario.world Sample.fresh
  = (Exn TypeError, Sample.fresh, [list_bufs_request])
  /\ NeovimInstance.getBufferIds Worlds.down Sample.fresh
     = (Exn (ErrorObj "channel closed"), Sample.fresh, [list_bufs_request]).
Proof.
  split.
  - apply (getBufferIds_returns_the_ids_in_order Scenario.world Sample.fresh)
      with (reply := VNull); [reflexivity | intros l H; discriminate H].
  - apply (getBufferIds_returns_the_ids_in_order Worlds.down Sample.fresh).
    reflexivity.
Defined.

(** X21. [setFont] measures the font, stores the measured width and the
    measured height plus the line padding, emits the setFont action first
    and then re-applies the last pixel dimensions: they are kept, and the
    recorded geometry is the size to apply for the new metrics, so no
    geometry computed from the old font survives. *)
Theorem setFont_recomputes_the_geometry (w : world) (s : driver)
  (fontFamily fontSize : string) (linePadding : float) :
  let measured := measureFont w fontFamily fontSize in
  let run := setFont fontFamily fontSize linePadding w s in
  let s' := final run in
  outcome run = Ok tt /\
  hd_error (trace run) = Some (font_action w fontFamily fontSize linePadding)
  /\ _fontWidthInPixels s' = Some (fst measured)
  /\ _fontHeightInPixels s' = Some (snd measured + linePadding)%float
  /\ _lastWidthInPixels s' = _lastWidthInPixels s
  /\ _lastHeightInPixels s' = _lastHeightInPixels s
  /\ _rows s' = Some (fst (size_to_apply s'))
  /\ _cols s' = Some (snd (size_to_apply s')).
Proof.
  cbv zeta.
  set (s1 := set_font fontFamily fontSize
               (fst (measureFont w fontFamily fontSize))
               (snd (measureFont w fontFamily fontSize) + linePadding)%float s).
  assert (Hrun : setFont fontFamily fontSize linePadding w s =
                 after_trace [font_action w fontFamily fontSize linePadding]
                   (resize (_lastWidthInPixels s) (_lastHeightInPixels s)
                      w s1)).
  { unfold setFont, bind, ask, modify, emit, get, after_trace, font_action.
    cbv zeta. fold s1.
    change (_lastWidthInPixels s1) with (_lastWidthInPixels s).
    change (_lastHeightInPixels s1) with (_lastHeightInPixels s).
    destruct (resize (_lastWidthInPixels s) (_lastHeightInPixels s) w s1)
      as [[r s2] t2]. reflexivity. }
  rewrite Hrun. unfold after_trace, outcome, final, trace. cbn [fst snd app].
  rewrite resize_run.
  set (s0 := set_lastPixels (_lastWidthInPixels s) (_lastHeightInPixels s) s1).
  destruct (same_geometry (size_to_apply s0) s1) eqn:Hsame.
  - unfold same_geometry in Hsame. apply andb_true_iff in Hsame.
    destruct Hsame as [Hrows Hcols].
    apply same_as_true in Hrows, Hcols.
    cbn [fst snd hd_error]. repeat split; assumption.
  - destruct (_initPromise s1) as [[reactions | | e] |];
      cbn [fst snd hd_error]; repeat split.
Qed.

Lemma tab_entries_run (tabs : list (value * value)) (w : world) (s : driver) :
  mapM tab_entry (map tab_object tabs) w s =
  (Ok (map tab_summary tabs), s, []).
Proof.
  induction tabs as [| [id name] rest IH]; simpl; [reflexivity |].
  unfold bind at 1. unfold tab_entry at 1, bind, lift. simpl.
  rewrite IH. reflexivity.
Qed.

(** X22. [tabline_update] passes on, on the "tabline-update" channel, the
    id of the current tab and, for every tab of its first tuple in order,
    the id of the tab reference and the name.  An entry that is [null]
    makes the command throw with nothing emitted. *)
Theorem tabline_update_passes_ids_and_names (w : world) (s : driver)
  (currentId : value) (tabs : list (value * value)) (more rest : list value) :
  redraw_command
    (VArr (VStr "tabline_update"
             :: VArr (VObj [("id", currentId)] :: VArr (map tab_object tabs)
                        :: more)
             :: rest)) w s
  = (Ok tt, s,
     [Emit "tabline-update" [currentId; VArr (map tab_summary tabs)]])
  /\ redraw_command
       (VArr (VStr "tabline_update"
                :: VArr (VObj [("id", currentId)]
                           :: VArr (map tab_object tabs ++ [VNull]) :: more)
                :: rest)) w s
     = (Exn TypeError, s, []).
Proof.
  rewrite !redraw_command_array. split.
  - change (redraw_switch (VStr "tabline_update") ?a w s)
      with (tabline_update a w s).
    unfold tabline_update, bind, lift, array_map, emit. simpl.
    rewrite tab_entries_run. reflexivity.
  - change (redraw_switch (VStr "tabline_update") ?a w s)
      with (tabline_update a w s).
    unfold tabline_update, bind, lift, array_map, emit. simpl.
    assert (Hthrows : forall s0,
              mapM tab_entry (map tab_object tabs ++ [VNull]) w s0 =
              (Exn TypeError, s0, [])).
    { induction tabs as [| [id name] tabs IH]; intros s0; simpl.
      - reflexivity.
      - unfold bind at 1. unfold tab_entry at 1, bind, lift. simpl.
        rewrite IH. reflexivity. }
    rewrite Hthrows. reflexivity.
Qed.

(** X23. [highlight_set] takes the attributes from the first field of its
    last tuple only: the five flags by truthiness (an absent flag is off),
    the two colours as they are (absent is [undefined]).  Earlier tuples
    and further fields are not read. *)
Theorem highlight_set_reads_the_last_map (w : world) (s : driver)
  (fields : list (string * value)) (earlier further : list value) :
  redraw_command
    (VArr (VStr "highlight_set" :: earlier ++ [VArr (VObj fields :: further)]))
    w s
  = (Ok tt, s, [EmitAction (highlight_of fields)]).
Proof.
  rewrite redraw_command_array.
  change (redraw_switch (VStr "highlight_set") ?a w s)
    with (highlight_set a w s).
  unfold highlight_set, bind, lift. rewrite last_item_snoc. reflexivity.
Qed.

(** X24. A full buffer update is checked against the ceiling before its
    context is looked at.  Within the ceiling, a context that is [null] or
    [undefined] makes the update fail before any request is sent; the
    notification handler drops that failure, so nothing is fetched and no
    BufferUpdate or Error event is dispatched.  Above the ceiling even
    such an update is just dropped. *)
Theorem buffer_update_without_context (w : world) (s : driver)
  (context : value) (startLine endLine : Z) :
  context = VNull \/ context = VUndefined ->
  let routed :=
    on_notification (VStr "oni_plugin_notify")
      (buffer_update_payload context startLine endLine) w s in
  (endLine <= 5000 ->
   _onFullBufferUpdate context (Fin startLine) (Fin endLine) w s
   = (Exn TypeError, s, []) /\
   routed = (Ok tt, s, [UnhandledRejection TypeError])) /\
  (endLine > 5000 -> routed = (Ok tt, s, [])).
Proof.
  intros Hcontext. cbv zeta.
  unfold on_notification, buffer_update_payload. simpl.
  unfold plugin_switch, plugin_buffer_update, _onFullBufferUpdate. simpl.
  unfold bind, lift, floating, ret. simpl.
  destruct (Z.gtb_spec endLine 5000); split; intros; try lia;
    destruct Hcontext as [-> | ->]; repeat split.
Qed.

Lemma buffer_update_without_context_witness :
  on_notification (VStr "oni_plugin_notify")
    (buffer_update_payload VNull 1 10) Scenario.world Sample.fresh
  = (Ok tt, Sample.fresh, [UnhandledRejection TypeError]).
Proof.
  apply (buffer_update_without_context Scenario.world Sample.fresh VNull
           1 10); [left; reflexivity | lia].
Defined.
